(** * inline-plz: the linter orchestration engine ([inlineplz/linters/__init__.py])

    A shallow embedding of [LinterRunner]: tool selection ([linters_to_run]),
    the project scanner ([all_filenames_in_dir], [should_ignore_path]), the
    installer ([install_linter], [install_trusted], [installed]), command
    resolution ([run_config]), per-file dispatch ([run_per_file]) and the
    run loop ([run_linters]).

    The operating system, the subprocesses, the [identify] classifier, the
    output parsers and [system.should_stop] are collaborators of the module;
    they appear as the fields of [Platform] and [World].  Everything the
    module itself decides is written out below, statement by statement. *)

From Stdlib Require Import String Ascii List ZArith Bool Lia.
From stdpp Require Import base strings gmap sets list.

Set Warnings "-register-all,-clear-no-such-hyp".

(** ** Python strings *)

Module Str.

(** [s.startswith(p)] *)
Definition startswith (s p : string) : bool := String.prefix p s.

(** Characters [str.strip()] removes: the ASCII white space, the four
    separators 0x1c-0x1f, NEL and NBSP. *)
Definition is_space (c : ascii) : bool :=
  let n := nat_of_ascii c in
  ((9 <=? n) && (n <=? 13)) || ((28 <=? n) && (n <=? 32))
  || (n =? 133) || (n =? 160).

Fixpoint lstrip (s : string) : string :=
  match s with
  | EmptyString => EmptyString
  | String c s' => if is_space c then lstrip s' else s
  end.

(** Right strip: a suffix made of white space only is dropped. *)
Fixpoint rstrip (s : string) : string :=
  match s with
  | EmptyString => EmptyString
  | String c s' =>
      match rstrip s' with
      | EmptyString => if is_space c then EmptyString else String c EmptyString
      | r => String c r
      end
  end.

(** [s.strip()] *)
Definition strip (s : string) : string := rstrip (lstrip s).

(** [s.split(sep)] for a one-character separator: the fields between the
    separators, empty fields included; the result is never empty. *)
Fixpoint split_go (sep : ascii) (cur : string) (s : string) : list string :=
  match s with
  | EmptyString => [cur]
  | String c s' =>
      if Ascii.eqb c sep then cur :: split_go sep EmptyString s'
      else split_go sep (cur +:+ String c EmptyString) s'
  end.

Definition split (sep : ascii) (s : string) : list string :=
  split_go sep EmptyString s.

(** [needle in s] on strings: [needle] occurs as a substring. *)
Fixpoint contains (needle s : string) : bool :=
  String.prefix needle s ||
  match s with
  | EmptyString => false
  | String _ s' => contains needle s'
  end.

(** [s.replace(old, new)] for a non-empty [old], scanning left to right;
    [skip] counts the characters of a match still to be dropped. *)
Fixpoint replace_go (old new : string) (skip : nat) (s : string) : string :=
  match s with
  | EmptyString => EmptyString
  | String c s' =>
      match skip with
      | S k => replace_go old new k s'
      | O =>
          if String.prefix old s
          then new +:+ replace_go old new (String.length old - 1) s'
          else String c (replace_go old new 0 s')
      end
  end.

Definition replace (old new s : string) : string := replace_go old new 0 s.

(** Truthiness of a string: it is not empty. *)
Definition truthy (s : string) : bool :=
  match s with EmptyString => false | _ => true end.

End Str.

(** ** Exceptions and results *)

(** The exception classes the module names in its handlers, and [Error]
    for any other subclass of [Exception]. *)
Inductive exn : Type :=
  | TypeError | ValueError | IndexError | AttributeError
  | OSError | CalledProcessError | Error.

Inductive result (A : Type) : Type :=
  | Ok (a : A)
  | Raise (e : exn).
Arguments Ok {A} a.
Arguments Raise {A} e.

Definition exn_eqb (a b : exn) : bool :=
  match a, b with
  | TypeError, TypeError | ValueError, ValueError | IndexError, IndexError
  | AttributeError, AttributeError | OSError, OSError
  | CalledProcessError, CalledProcessError | Error, Error => true
  | _, _ => false
  end.

(** An [except] clause is the list of classes it names; [except Exception]
    takes every [exn]. *)
Definition except_Exception (e : exn) : bool := true.
Definition except_OSError (e : exn) : bool := exn_eqb e OSError.
Definition except_ValueError (e : exn) : bool := exn_eqb e ValueError.
Definition except_CalledProcessError_OSError (e : exn) : bool :=
  exn_eqb e CalledProcessError || exn_eqb e OSError.

Global Instance result_ret : MRet result := fun _ a => Ok a.
Global Instance result_bind : MBind result := fun _ _ f m =>
  match m with
  | Ok a => f a
  | Raise e => Raise e
  end.

(** ** The data of a run *)

(** A command line is an argument vector. *)
Abbreviation cmd := (list string).

(** A diagnostic as the parsers return it: [(path, line, text)]. *)
Abbreviation diagnostic := (string * Z * string)%type.

(** What a tool hands to its parser: the text of one whole-project run, or
    the [(file, text)] pairs of a per-file run. *)
Inductive raw_output : Type :=
  | OutStr (s : string)
  | OutList (l : list (string * string)).

(** [if output:] *)
Definition output_truthy (o : raw_output) : bool :=
  match o with
  | OutStr s => Str.truthy s
  | OutList [] => false
  | OutList (_ :: _) => true
  end.

(** A directory as [os.walk] sees it: its sub-directories, by name, in the
    order [scandir] lists them, and the names of its files. *)
Inductive dir : Type :=
  | Dir (subdirs : list (string * dir)) (filenames : list string).

(** [os.listdir]: the names of all entries. *)
Definition entries (d : dir) : list string :=
  match d with Dir subdirs filenames => subdirs.*1 ++ filenames end.

(** Where in the module a [run_command] call is written. *)
Inductive call_site : Type :=
  | SitePerf        (* performance_hacks *)
  | SiteHelp        (* installed *)
  | SiteInstall     (* install_linter *)
  | SiteTrusted     (* install_trusted *)
  | SiteRun         (* run_linters, whole project *)
  | SiteRunFile.    (* run_per_file *)

(** What the run does to its environment, in the order it does it. *)
Inductive event : Type :=
  | EvRmtree (install_dir : string)            (* shutil.rmtree *)
  | EvExec (site : call_site) (command : cmd)  (* run_command *)
  | EvShouldStop                               (* system.should_stop() *)
  | EvParse (linter : string) (output : raw_output).

(** How a subprocess ends: with a return code and its two streams, or the
    spawn or the communication raises. *)
Inductive outcome : Type :=
  | Exited (returncode : Z) (stdout stderr : string)
  | Failed (e : exn).

(** The host: [os.path], [fnmatch], [sys] and the location of the package. *)
Record Platform : Type := {
  sep : ascii;                              (* os.path.sep *)
  path_join : string -> string -> string;   (* os.path.join *)
  normpath : string -> string;              (* os.path.normpath *)
  relpath : string -> result string;        (* os.path.relpath(path) *)
  fnmatch : string -> string -> bool;       (* fnmatch.fnmatch(name, pat) *)
  getcwd : string;                          (* os.getcwd() *)
  sys_executable : string;                  (* sys.executable *)
  vendored_path : string -> string;         (* vendored_path *)
  JAVA_SEP : string;
  HERE_config : string   (* os.path.abspath(os.path.join(HERE, "config")) *)
}.

(** The collaborators that answer during a run.  Those that depend on what
    has happened so far (the file system, the subprocesses, the stop flag)
    take the events of the run up to that point. *)
Record World : Type := {
  fs : list event -> string -> option dir;   (* the directory at a path *)
  tags_text : list event -> string -> bool;  (* "text" in identify.tags_from_path(p) *)
  exec : list event -> cmd -> outcome;       (* the subprocess of run_command *)
  should_stop : list event -> bool;          (* system.should_stop() *)
  parse : string -> raw_output -> result (list diagnostic);
                                             (* Parser().parse(output) *)
  iter_set : gset string -> list string;     (* iteration order of a set of str *)
  iter_set_perm : forall s, iter_set s ≡ₚ elements s
}.

(** One entry of [LINTERS]; [get_k c] is [c.get("k")]. *)
Record config : Type := {
  get_install : list cmd;
  get_help : cmd;
  get_run : cmd;
  get_rundefault : cmd;
  get_dotfiles : list string;
  get_parser : string;
  get_language : string;
  get_autorun : bool;
  get_run_per_file : bool;
  get_run_if_dotfile_in_root : option bool;
  get_concurrency : option nat
}.

(** [d.get(k)] on a dict written as its items, in insertion order. *)
Fixpoint dict_get {V : Type} (k : string) (d : list (string * V)) : option V :=
  match d with
  | [] => None
  | (k', v) :: d' => if String.eqb k k' then Some v else dict_get k d'
  end.

(** ** The tables of the module *)

Module Registry.
Section Tables.
Variable P : Platform.

Let exe := sys_executable P.
Let np := normpath P.
Let vp := vendored_path P.
Let pj := path_join P.

(** Glob patterns of each language. *)
Definition PATTERNS : list (string * list string) := [
  ("all", ["*.*"]);
  ("ansible", ["*.yaml"; "*.yml"]);
  ("docker", ["*Dockerfile"; "*.dockerfile"]);
  ("gherkin", ["*.feature"]);
  ("go", ["*.go"]);
  ("groovy", ["*.groovy"; "Jenkinsfile"; "jenkinsfile"]);
  ("java", ["*.java"]);
  ("javascript", ["*.js"]);
  ("json", ["*.json"]);
  ("markdown", ["*.md"]);
  ("python", ["*.py"]);
  ("shell", ["*.sh"; "*.zsh"; "*.ksh"; "*.bsh"; "*.csh"; "*.bash"]);
  ("stylus", ["*.styl"]);
  ("robotframework", ["*.robot"]);
  ("rst", ["*.rst"]);
  ("text", ["*.md"; "*.txt"; "*.rtf"; "*.html"; "*.tex"; "*.markdown"]);
  ("yaml", ["*.yaml"; "*.yml"])
].

(** Commands run to try to install dependencies. *)
Definition TRUSTED_INSTALL : list cmd := [
  ["bundle"; "install"];
  ["cabal"; "update"];
  ["cabal"; "install"];
  ["glide"; "install"; "--strip-vendor"];
  ["godep"; "get"];
  ["godep"; "restore"];
  ["dep"; "ensure"];
  ["dep"; "prune"];
  ["govendor"; "sync"];
  ["go"; "get"; "-t"; "-v"; "./..."];
  ["yarn"; "install"; "--non-interactive"];
  ["npm"; "install"];
  [exe; "setup.py"; "develop"];
  [exe; "-m"; "pip"; "install"; "."];
  [exe; "-m"; "pip"; "install"; "-e"; "."];
  [exe; "-m"; "pip"; "install"; "-r"; "requirements.txt"];
  [exe; "-m"; "pip"; "install"; "-r"; "requirements_dev.txt"];
  [exe; "-m"; "pip"; "install"; "-r"; "requirements-dev.txt"];
  ["pipenv"; "install"]
].

(** Directories deleted by [cleanup]. *)
Definition INSTALL_DIRS : list string := ["node_modules"; ".bundle"].

Definition GROOVY_PATH : string := vp (pj "groovy" "groovy-all-2.4.15.jar").
Definition SLF4J_PATH : string := vp (pj "groovy" "slf4j-api-1.7.25.jar").

Definition codenarc_classpath : string :=
  GROOVY_PATH +:+ JAVA_SEP P +:+ vp (pj "codenarc" "CodeNarc-1.1.jar")
  +:+ JAVA_SEP P +:+ SLF4J_PATH +:+ JAVA_SEP P +:+ vp "codenarc"
  +:+ JAVA_SEP P +:+ ".".

Definition pmd_run_sh : string :=
  vp (pj (pj (pj "pmd" "pmd-bin-6.3.0") "bin") "run.sh").

Definition pip_U (package : string) : cmd :=
  [exe; "-m"; "pip"; "install"; "-U"; package].

Definition node_bin (tool : string) : string :=
  np ("./node_modules/.bin/" +:+ tool).

(** A [LINTERS] entry without the optional keys. *)
Definition entry (install : list cmd) (help run rundefault : cmd)
    (dotfiles : list string) (parser language : string)
    (autorun run_per_file : bool) : config :=
  {| get_install := install; get_help := help; get_run := run;
     get_rundefault := rundefault; get_dotfiles := dotfiles;
     get_parser := parser; get_language := language;
     get_autorun := autorun; get_run_per_file := run_per_file;
     get_run_if_dotfile_in_root := None; get_concurrency := None |}.

Definition gometalinter_entry (name url : string) (autorun : bool) : config :=
  entry [["go"; "get"; "-u"; url]; [name; "--install"; "--update"]]
        [name; "--install"; "--update"]
        [name; "--enable-gc"; "--deadline=300s"; "--aggregate"; "--vendor";
         "--json"; "-s"; "node_modules"; "-s"; "src"; "./..."]
        [name; "--enable-gc"; "--deadline=300s"; "--aggregate"; "--vendor";
         "--disable=lll"; "--json"; "-s"; "node_modules"; "-s"; "src";
         "--config={config_dir}/.gometalinter.json"; "./..."]
        [".gometalinter.json"] "GometalinterParser" "go" autorun false.

(** Linter configs, in the order the dict literal lists them. *)
Definition LINTERS : list (string * config) := [
  ("ansible-lint",
   entry [pip_U "ansible-lint"] ["ansible-lint"; "-h"] ["ansible-lint"; "-p"]
         ["ansible-lint"; "-p"; "-c"; "{config_dir}/.ansible-lint"]
         [".ansible-lint"] "AnsibleLintParser" "ansible" true true);
  ("bandit",
   entry [pip_U "bandit"] ["bandit"; "-h"]
         ["bandit"; "-f"; "json"; "-iii"; "-ll"; "-r"; "."]
         ["bandit"; "-f"; "json"; "-iii"; "-ll"; "-r"; "."; "-c";
          "{config_dir}/bandit.yaml"]
         ["bandit.yaml"] "BanditParser" "python" true false);
  ("codenarc",
   entry []
         ["java"; "-classpath"; codenarc_classpath; "org.codenarc.CodeNarc";
          "-help"]
         ["java"; "-classpath"; codenarc_classpath; "org.codenarc.CodeNarc";
          "-includes=**/*.groovy,**/Jenkinsfile,**/jenkinsfile,**/...groovy";
          "-report=console";
          "-rulesetfiles=" +:+ pj (getcwd P) "codenarc.xml"]
         ["java"; "-classpath"; codenarc_classpath; "org.codenarc.CodeNarc";
          "-includes=**/*.groovy,**/Jenkinsfile,**/jenkinsfile,**/...groovy";
          "-report=console"; "-rulesetfiles=codenarc.xml"]
         ["codenarc.xml"] "CodenarcParser" "groovy" true false);
  ("detect-secrets",
   entry [pip_U "git+https://github.com/Yelp/detect-secrets.git@49dc1786f20f6d11ca1ce53bda6479f6c0ccea0f"]
         ["detect-secrets"; "-h"] ["detect-secrets"; "scan"; "--all-files"]
         ["detect-secrets"; "scan"; "--all-files"]
         [] "DetectSecretsParser" "all" true false);
  ("dockerfile_lint",
   entry [["npm"; "install"; "dockerfile_lint"]]
         [node_bin "dockerfile_lint"; "-h"]
         [node_bin "dockerfile_lint"; "-j"; "-f"]
         [node_bin "dockerfile_lint"; "-j"; "-f"]
         [] "DockerfileLintParser" "docker" true true);
  ("eclint",
   {| get_install := [["npm"; "install"; "eclint"]];
      get_help := [node_bin "eclint"; "-h"];
      get_run := [node_bin "eclint"; "check"];
      get_rundefault := [node_bin "eclint"; "check"];
      get_dotfiles := [".editorconfig"];
      get_parser := "ECLintParser"; get_language := "all";
      get_autorun := false; get_run_per_file := true;
      get_run_if_dotfile_in_root := Some false; get_concurrency := None |});
  ("eslint",
   entry [["npm"; "install"; "eslint"]] [node_bin "eslint"; "-h"]
         [node_bin "eslint"; "."; "-f"; "unix"]
         [node_bin "eslint"; "."; "-f"; "unix"; "-c";
          "{config_dir}/.eslintrc.js"; "--ignore-path";
          "{config_dir}/.eslintignore"]
         [".eslintrc.yml"; ".eslintrc.yaml"; ".eslintignore"; ".eslintrc";
          ".eslintrc.js"; ".eslintrc.json"]
         "ESLintParser" "javascript" true false);
  ("gherkin-lint",
   entry [["npm"; "install"; "gherkin-lint"]]
         [node_bin "gherkin-lint"; "--help"]
         [node_bin "gherkin-lint"; "."; "-f"; "json"]
         [node_bin "gherkin-lint"; "."; "-f"; "json"; "-c";
          "{config_dir}/.gherkin-lintrc"]
         [".gherkin-lintrc"] "GherkinLintParser" "gherkin" true false);
  ("gometalinter.v2",
   gometalinter_entry "gometalinter.v2" "gopkg.in/alecthomas/gometalinter.v2"
                      false);
  ("gometalinter",
   gometalinter_entry "gometalinter" "github.com/alecthomas/gometalinter"
                      true);
  ("jscs",
   entry [["npm"; "install"; "jscs"]] [node_bin "jscs"; "-h"]
         [node_bin "jscs"; "."; "-r"; "json"; "-m"; "-1"; "-v"]
         [node_bin "jscs"; "."; "-r"; "json"; "-m"; "-1"; "-v"; "-c";
          "{config_dir}/.jscsrc"]
         [".jscsrc"; ".jscs.json"] "JSCSParser" "javascript" false false);
  ("jshint",
   entry [["npm"; "install"; "jshint"]] [node_bin "jshint"; "-h"]
         [node_bin "jshint"; "."; "--reporter"; "checkstyle"]
         [node_bin "jshint"; "."; "--reporter"; "checkstyle"; "-c";
          "{config_dir}/.jshintrc"]
         [".jshintrc"] "JSHintParser" "javascript" false false);
  ("jsonlint",
   entry [["npm"; "install"; "jsonlint"]] [node_bin "jsonlint"; "-h"]
         [node_bin "jsonlint"; "-c"; "-q"] [node_bin "jsonlint"; "-c"; "-q"]
         [] "JSONLintParser" "json" true true);
  ("markdownlint-cli",
   entry [["npm"; "install"; "markdownlint-cli"]]
         [node_bin "markdownlint"; "-h"] [node_bin "markdownlint"; "."]
         [node_bin "markdownlint"; "."; "-c"; "{config_dir}/.markdownlintrc"]
         [".markdownlintrc"; ".markdownlint.json"]
         "MarkdownLintParser" "markdown" true false);
  ("megacheck",
   entry [["go"; "get"; "-u"; "honnef.co/go/tools/cmd/megacheck"]]
         ["megacheck"; "--help"] ["megacheck"; "-f"; "json"; "./..."]
         ["megacheck"; "-f"; "json"; "./..."]
         [] "MegacheckParser" "go" false false);
  ("pmd",
   entry [] [pmd_run_sh; "-help"]
         [pmd_run_sh; "pmd"; "-d"; "."; "-R"; "java-basic"; "-f"; "emacs"]
         [pmd_run_sh; "pmd"; "-d"; "."; "-R"; "java-basic"; "-f"; "emacs"]
         [] "PMDParser" "java" true false);
  ("proselint",
   {| get_install := [pip_U "proselint"];
      get_help := ["proselint"; "-h"];
      get_run := ["proselint"]; get_rundefault := ["proselint"];
      get_dotfiles := [];
      get_parser := "ProselintParser"; get_language := "text";
      get_autorun := true; get_run_per_file := true;
      get_run_if_dotfile_in_root := None; get_concurrency := Some 1 |});
  ("prospector",
   entry [pip_U "prospector[with_everything]"; pip_U "prospector"]
         ["prospector"; "-h"] ["prospector"; "--zero-exit"; "-o"; "json"]
         ["prospector"; "--zero-exit"; "-o"; "json"; "-P";
          "{config_dir}/.prospector.yaml"]
         [".prospector.yaml"] "ProspectorParser" "python" true false);
  ("robotframework-lint",
   entry [pip_U "robotframework-lint"] ["rflint"; "--help"] ["rflint"]
         ["rflint"; "-A"; "{config_dir}/.rflint"]
         [".rflint"] "RobotFrameworkLintParser" "robotframework" true true);
  ("restructuredtext_lint",
   entry [pip_U "restructuredtext_lint"] ["rst-lint"; "-h"]
         ["rst-lint"; "--format"; "json"; "--encoding"; "utf-8"]
         ["rst-lint"; "--format"; "json"; "--encoding"; "utf-8"]
         [] "RSTLintParser" "rst" true true);
  ("shellcheck",
   entry [["cabal"; "update"]; ["cabal"; "install"; "shellcheck"];
          ["apt-get"; "install"; "shellcheck"];
          ["dnf"; "install"; "shellcheck"];
          ["brew"; "install"; "shellcheck"];
          ["port"; "install"; "shellcheck"];
          ["zypper"; "in"; "ShellCheck"]]
         ["shellcheck"; "-V"] ["shellcheck"; "-f"; "json"]
         ["shellcheck"; "-f"; "json"]
         [] "ShellcheckParser" "shell" true true);
  ("spotbugs-maven-plugin",
   entry [["mvn"; "clean"; "install"; "-U"];
          ["mvn"; "dependency:get";
           "-Dartifact=com.github.spotbugs:spotbugs-maven-plugin:3.1.3"]]
         ["mvn"; "com.github.spotbugs:spotbugs-maven-plugin:3.1.3:help"]
         ["mvn"; "-Dspotbugs.failOnError=false";
          "com.github.spotbugs:spotbugs-maven-plugin:3.1.3:check"]
         ["mvn"; "-Dspotbugs.failOnError=false";
          "com.github.spotbugs:spotbugs-maven-plugin:3.1.3:check"]
         [] "SpotbugsMavenParser" "java" true false);
  ("stylint",
   entry [["npm"; "install"; "stylint"]] [node_bin "stylint"; "-h"]
         [node_bin "stylint"]
         [node_bin "stylint"; "-c"; "{config_dir}/.stylintrc"]
         [".stylintrc"] "StylintParser" "stylus" true false);
  ("yamllint",
   entry [[exe; "-m"; "pip"; "install"; "yamllint"]] ["yamllint"; "-h"]
         ["yamllint"; "-f"; "parsable"; "."]
         ["yamllint"; "-c"; "{config_dir}/.yamllint"; "-f"; "parsable"; "."]
         [".yamllint"] "YAMLLintParser" "yaml" true false)
].

End Tables.
End Registry.

(** ** The runner and its monad *)

(** The [LinterRunner] object, and the events of the run so far. *)
Record runner : Type := {
  previous_install_commands : list cmd;
  history : list event
}.

(** A fresh [LinterRunner()]. *)
Definition new_runner : runner :=
  {| previous_install_commands := []; history := [] |}.

(** A method body: it may change [self], and returns or raises. *)
Definition M (A : Type) : Type := runner -> result A * runner.

Definition ret {A} (a : A) : M A := fun self => (Ok a, self).

Definition bind {A B} (m : M A) (k : A -> M B) : M B := fun self =>
  match m self with
  | (Ok a, self') => k a self'
  | (Raise e, self') => (Raise e, self')
  end.

Definition raise {A} (e : exn) : M A := fun self => (Raise e, self).

Global Instance M_ret : MRet M := @ret.
Global Instance M_bind : MBind M := fun _ _ k m => bind m k.

(** [try: m  except <classes>: handler]; other exceptions pass through. *)
Definition try_except {A} (m : M A) (classes : exn -> bool)
    (handler : exn -> M A) : M A := fun self =>
  match m self with
  | (Ok a, self') => (Ok a, self')
  | (Raise e, self') =>
      if classes e then handler e self' else (Raise e, self')
  end.

(** A value computed from the world as it is now. *)
Definition read {A} (f : list event -> result A) : M A := fun self =>
  (f (history self), self).

Definition log (ev : event) : M unit := fun self =>
  (Ok tt, {| previous_install_commands := previous_install_commands self;
             history := history self ++ [ev] |}).

(** An [async def] called: the coroutine object.  It runs when awaited; an
    expression statement that only calls it drops it unrun. *)
Inductive coroutine (A : Type) : Type :=
  | Coroutine (body : M A).
Arguments Coroutine {A} body.

Definition await {A} (c : coroutine A) : M A :=
  match c with Coroutine body => body end.

Definition expr_stmt {A} (c : coroutine A) : M unit := ret tt.

(** ** Messages *)

(** Modelled from the spec: the class [message.Messages] is not part of
    this module.  The spec gives the DiagnosticSet as a set, unique by
    value and unordered, that a merge extends by set union. *)
Module Messages.

Definition t : Type := gset diagnostic.

Definition new : t := ∅.

Definition add_messages (self : t) (messages : gset diagnostic) : t :=
  self ∪ messages.

Definition get_messages (self : t) : gset diagnostic := self.

End Messages.

(** ** LinterRunner *)

Section LinterRunner.

Variable P : Platform.
Variable W : World.
Variable LINTERS : list (string * config).
Variable PATTERNS : list (string * list string).
Variable TRUSTED_INSTALL : list cmd.
Variable INSTALL_DIRS : list string.

(** [x or default] for an optional string and an optional list. *)
Definition or_str (x : option string) (default : string) : string :=
  match x with
  | Some s => if Str.truthy s then s else default
  | None => default
  end.

Definition or_list {A} (x : option (list A)) : list A :=
  match x with
  | Some l => l
  | None => []
  end.

(** [for x in l] needs an iterable: [None] raises [TypeError]. *)
Definition iterate {A} (l : option (list A)) : result (list A) :=
  match l with
  | Some l => Ok l
  | None => Raise TypeError
  end.

(** *** should_ignore_path *)

(** One turn of the loop: the four tests, joined by [or]. *)
Definition ignore_path_matches (path ignore_path : string) : result bool :=
  rel ← relpath P path;
  Ok (Str.startswith rel ignore_path
      || Str.startswith path ignore_path
      || fnmatch P path ignore_path
      || bool_decide (ignore_path ∈ Str.split (sep P) path)).

Fixpoint should_ignore_path_loop (path : string) (ignore_paths : list string)
    : result bool :=
  match ignore_paths with
  | [] => Ok false
  | ignore_path :: rest =>
      hit ← ignore_path_matches path ignore_path;
      if hit : bool then Ok true else should_ignore_path_loop path rest
  end.

Definition should_ignore_path (path : string)
    (ignore_paths : option (list string)) : result bool :=
  l ← iterate ignore_paths;
  should_ignore_path_loop path l.

(** *** all_filenames_in_dir *)

(** [dirnames.remove(ignore)]: the first occurrence goes; [ValueError] when
    there is none. *)
Fixpoint list_remove (x : string) (l : list string) : result (list string) :=
  match l with
  | [] => Raise ValueError
  | y :: l' =>
      if String.eqb x y then Ok l'
      else l'' ← list_remove x l'; Ok (y :: l'')
  end.

(** [for ignore in ignore_paths: dirnames.remove(ignore)], on the list
    [dirnames] that is changed in place: how the loop ends, and the list as
    it is then. *)
Fixpoint remove_ignored (ignore_paths : list string) (dirnames : list string)
    : result unit * list string :=
  match ignore_paths with
  | [] => (Ok tt, dirnames)
  | ignore :: rest =>
      match list_remove ignore dirnames with
      | Ok dirnames' => remove_ignored rest dirnames'
      | Raise e => (Raise e, dirnames)
      end
  end.

(** The [try] around that loop, with its [except ValueError: pass]. *)
Definition prune_dirnames (ignore_paths : option (list string))
    (dirnames : list string) : result (list string) :=
  l ← iterate ignore_paths;
  match remove_ignored l dirnames with
  | (Ok _, dirnames') => Ok dirnames'
  | (Raise e, dirnames') =>
      if except_ValueError e then Ok dirnames' else Raise e
  end.

(** The files of one directory that [identify] tags as text. *)
Definition text_files (h : list event) (root : string)
    (filenames : list string) : list string :=
  filter (fun full_path => tags_text W h full_path = true)
         (map (path_join P root) filenames).

(** The body of the [for root, dirnames, filenames in os.walk(...)] loop:
    the directory names left for the descent, and the set [paths]. *)
Definition scan_directory (h : list event)
    (ignore_paths : option (list string))
    (root : string) (dirnames filenames : list string) (paths : gset string)
    : result (list string * gset string) :=
  dirnames' ← prune_dirnames ignore_paths dirnames;
  ignored ← should_ignore_path root ignore_paths;
  if ignored : bool then Ok (dirnames', paths)
  else Ok (dirnames', paths ∪ list_to_set (text_files h root filenames)).

(** [os.walk(top, topdown=True)] driving a loop body.  The body receives
    the directory, the names of its sub-directories and of its files, and
    returns the names it leaves in [dirnames]; the walk then descends, in
    listing order, into the sub-directories still named there (entries of
    one directory have distinct names).  The second component lists the
    directories the walk has yielded, in order. *)
Fixpoint os_walk {A : Type}
    (body : string -> list string -> list string -> A ->
            result (list string * A))
    (top : string) (d : dir) (acc : A * list string) {struct d}
    : result (A * list string) :=
  match d with
  | Dir subdirs filenames =>
      match body top (subdirs.*1) filenames (acc.1) with
      | Raise e => Raise e
      | Ok (dirnames, a) =>
          (fix descend (l : list (string * dir)) (acc : A * list string)
             : result (A * list string) :=
             match l with
             | [] => Ok acc
             | (name, sub) :: l' =>
                 if bool_decide (name ∈ dirnames) then
                   match os_walk body (path_join P top name) sub acc with
                   | Raise e => Raise e
                   | Ok acc' => descend l' acc'
                   end
                 else descend l' acc
             end) subdirs (a, acc.2 ++ [top])
      end
  end.

(** The walk of [all_filenames_in_dir]: the set [paths] and the directories
    visited.  A [path] that cannot be listed yields nothing. *)
Definition walk_filenames (h : list event) (path : option string)
    (ignore_paths : option (list string)) : result (gset string * list string) :=
  let path := or_str path (getcwd P) in
  match fs W h path with
  | None => Ok (∅, [])
  | Some d => os_walk (scan_directory h ignore_paths) path d (∅, [])
  end.

Definition all_filenames_in_dir (h : list event) (path : option string)
    (ignore_paths : option (list string)) : result (gset string) :=
  r ← walk_filenames h path ignore_paths; Ok (r.1).

(** *** should_autorun, dotfiles_exist *)

(** [fnmatch.filter(names, pattern)], for a set of names. *)
Definition fnmatch_filter (names : gset string) (pattern : string)
    : list string :=
  filter (fun name => fnmatch P name pattern = true) (iter_set W names).

Fixpoint any_pattern_matches (filenames : gset string)
    (patterns : list string) : bool :=
  match patterns with
  | [] => false
  | pattern :: rest =>
      match fnmatch_filter filenames pattern with
      | _ :: _ => true
      | [] => any_pattern_matches filenames rest
      end
  end.

Definition should_autorun (c : config) (filenames : gset string)
    : result bool :=
  let patterns := dict_get (get_language c) PATTERNS in
  if get_autorun c then
    l ← iterate patterns; Ok (any_pattern_matches filenames l)
  else Ok false.

(** [os.listdir(path)] *)
Definition listdir (h : list event) (path : string) : result (list string) :=
  match fs W h path with
  | Some d => Ok (entries d)
  | None => Raise OSError
  end.

(** [any(dotfile.strip() in os.listdir(path) for dotfile in dotfiles)] *)
Fixpoint any_dotfile (h : list event) (path : string)
    (dotfiles : list string) : result bool :=
  match dotfiles with
  | [] => Ok false
  | dotfile :: rest =>
      names ← listdir h path;
      if bool_decide (Str.strip dotfile ∈ names) then Ok true
      else any_dotfile h path rest
  end.

Definition dotfiles_exist (h : list event) (c : config)
    (path : option string) : result bool :=
  any_dotfile h (or_str path (getcwd P)) (get_dotfiles c).

(** *** linters_to_run *)

Definition getitem0 (l : list string) : result string :=
  match l with
  | [] => Raise IndexError
  | first :: _ => Ok first
  end.

Definition except_IndexError_AttributeError (e : exn) : bool :=
  exn_eqb e IndexError || exn_eqb e AttributeError.

(** [try: l.extend(l[0].split(","))  except (IndexError, AttributeError): pass] *)
Definition extend_split (l : list string) : result (list string) :=
  match (first ← getitem0 l; Ok (l ++ Str.split "," first)) with
  | Ok l' => Ok l'
  | Raise e => if except_IndexError_AttributeError e then Ok l else Raise e
  end.

(** A [for] loop over a list whose body may raise; [s] is what the body
    updates. *)
Fixpoint for_each {A S : Type} (l : list A) (body : A -> S -> result S)
    (s : S) : result S :=
  match l with
  | [] => Ok s
  | x :: l' => s' ← body x s; for_each l' body s'
  end.

(** [dotfilefound.get(language)] as a condition. *)
Definition found_for (dotfilefound : gmap string bool) (language : string)
    : bool :=
  match dotfilefound !! language with
  | Some b => b
  | None => false
  end.

Definition opt_truthy (b : option bool) : bool :=
  match b with
  | Some b => b
  | None => false
  end.

Definition add_unless_disabled (linter : string)
    (disabled_linters : list string) (linters : gset string) : gset string :=
  if bool_decide (linter ∈ disabled_linters) then linters
  else linters ∪ {[linter]}.

(** The loop of the branch [if not autorun]. *)
Definition select_enabled (enabled_linters : list string) : gset string :=
  foldl (fun linters (item : string * config) =>
           if bool_decide (item.1 ∈ enabled_linters)
           then linters ∪ {[item.1]} else linters)
        ∅ LINTERS.

(** The first loop of the autorun branch, one tool. *)
Definition dotfile_step (h : list event) (disabled_linters : list string)
    (item : string * config) (s : gmap string bool * gset string)
    : result (gmap string bool * gset string) :=
  let '(linter, c) := item in
  let '(dotfilefound, linters) := s in
  found ← dotfiles_exist h c None;
  let '(dotfilefound, linters) :=
    if found : bool then
      (<[get_language c := true]> dotfilefound,
       if opt_truthy (get_run_if_dotfile_in_root c)
          && negb (bool_decide (linter ∈ disabled_linters))
       then linters ∪ {[linter]} else linters)
    else (dotfilefound, linters) in
  if found_for dotfilefound (get_language c) && get_autorun c
  then Ok (dotfilefound, add_unless_disabled linter disabled_linters linters)
  else Ok (dotfilefound, linters).

(** The second loop of the autorun branch, one tool. *)
Definition pattern_step (enabled_linters disabled_linters : list string)
    (dotfilefound : gmap string bool) (filenames : gset string)
    (item : string * config) (linters : gset string) : result (gset string) :=
  let '(linter, c) := item in
  wanted ←
    (if bool_decide (linter ∈ enabled_linters) then Ok true
     else if negb (found_for dotfilefound (get_language c))
          then should_autorun c filenames
          else Ok false);
  if wanted : bool
  then Ok (add_unless_disabled linter disabled_linters linters)
  else Ok linters.

Definition linters_to_run (h : list event) (autorun : bool)
    (ignore_paths enabled_linters disabled_linters : option (list string))
    : result (gset string) :=
  let linters : gset string := ∅ in
  let enabled_linters := or_list enabled_linters in
  let disabled_linters := or_list disabled_linters in
  enabled_linters ← extend_split enabled_linters;
  disabled_linters ← extend_split disabled_linters;
  if negb autorun then Ok (select_enabled enabled_linters)
  else
    '(dotfilefound, linters) ←
      for_each LINTERS (dotfile_step h disabled_linters) (∅, linters);
    filenames ← all_filenames_in_dir h (Some (getcwd P)) ignore_paths;
    for_each LINTERS
      (pattern_step enabled_linters disabled_linters dotfilefound filenames)
      linters.

(** *** run_config *)

Definition list_truthy {A} (l : list A) : bool :=
  match l with
  | [] => false
  | _ :: _ => true
  end.

(** [item.format(config_dir=config_dir)]: the templates of the table have
    the one replacement field [{config_dir}]. *)
Definition format_config_dir (item config_dir : string) : string :=
  Str.replace "{config_dir}" config_dir item.

Definition run_config (h : list event) (c : config)
    (config_dir : option string) : result cmd :=
  here ← dotfiles_exist h c None;
  if here && list_truthy (get_run c) then Ok (get_run c)
  else
    there ←
      (match config_dir with
       | Some d => if Str.truthy d then dotfiles_exist h c (Some d)
                   else Ok false
       | None => Ok false
       end);
    let config_dir :=
      if there : bool then or_str config_dir (HERE_config P)
      else HERE_config P in
    Ok (map (fun item =>
               if negb (Str.contains "..." item)
               then normpath P (format_config_dir item config_dir)
               else format_config_dir item config_dir)
            (if list_truthy (get_rundefault c) then get_rundefault c
             else get_run c)).

(** *** run_command and the installer *)

Definition newline : string := String (ascii_of_nat 10) EmptyString.

(** [run_command]: the subprocess is spawned with the command, and the two
    streams come back joined and stripped.  [log_on_fail] and [log_all]
    only print; [timeout] is not used by the body. *)
Definition run_command (site : call_site) (command : cmd)
    : coroutine (Z * string) :=
  Coroutine (fun self =>
    let self' := {| previous_install_commands := previous_install_commands self;
                    history := history self ++ [EvExec site command] |} in
    match exec W (history self) command with
    | Exited returncode stdout stderr =>
        (Ok (returncode, Str.strip (stdout +:+ newline +:+ stderr)), self')
    | Failed e => (Raise e, self')
    end).

Definition performance_hacks : coroutine unit :=
  Coroutine (
    try_except
      (_ ← await (run_command SitePerf ["npm"; "set"; "progress=false"]);
       ret tt)
      except_Exception (fun _ => ret tt)).

(** [cleanup]: [shutil.rmtree(install_dir, ignore_errors=True)] for each. *)
Fixpoint cleanup_loop (install_dirs : list string) : M unit :=
  match install_dirs with
  | [] => ret tt
  | install_dir :: rest =>
      (_ ← log (EvRmtree install_dir); cleanup_loop rest)
  end.

Definition cleanup : M unit := cleanup_loop INSTALL_DIRS.

Definition installed (c : config) : coroutine bool :=
  Coroutine (
    try_except
      (r ← await (run_command SiteHelp (get_help c));
       ret (r.1 =? 0)%Z)
      except_CalledProcessError_OSError (fun _ => ret false)).

Definition ledger_append (install_cmd : cmd) : M unit := fun self =>
  (Ok tt,
   {| previous_install_commands := previous_install_commands self ++ [install_cmd];
      history := history self |}).

Fixpoint install_loop (c : config) (install_cmds : list cmd) : M unit :=
  match install_cmds with
  | [] => ret tt
  | install_cmd :: rest =>
      (fun self =>
         if bool_decide (install_cmd ∈ previous_install_commands self)
         then install_loop c rest self
         else
           (_ ← ledger_append install_cmd;
            is_installed ← await (installed c);
            if negb is_installed then
              _ ← try_except
                     (_ ← await (run_command SiteInstall install_cmd);
                      ret tt)
                     except_OSError (fun _ => ret tt);
              install_loop c rest
            else ret tt) self)
  end.

Definition install_linter (c : config) : coroutine unit :=
  Coroutine (install_loop c (get_install c)).

Fixpoint install_trusted_loop (install_cmds : list cmd) : M unit :=
  match install_cmds with
  | [] => ret tt
  | install_cmd :: rest =>
      (_ ← try_except
              (_ ← await (run_command SiteTrusted install_cmd); ret tt)
              except_OSError (fun _ => ret tt);
       install_trusted_loop rest)
  end.

Definition install_trusted : coroutine unit :=
  Coroutine (install_trusted_loop TRUSTED_INSTALL).
(** *** run_per_file *)

(** [event_loop.create_task(run_command(...))]: the task runs the body of
    the coroutine and keeps what it returned or raised until it is
    awaited.  The tasks of one tool are started in the order they are
    created. *)
Definition create_task {A} (c : coroutine A) : M (result A) := fun self =>
  let '(r, self') := await c self in (Ok r, self').

Definition await_task {A} (task : result A) : M A :=
  match task with
  | Ok a => ret a
  | Raise e => raise e
  end.

Fixpoint create_tasks (run_cmds : list cmd) : M (list (result (Z * string))) :=
  match run_cmds with
  | [] => ret []
  | run_cmd :: rest =>
      task ← create_task (run_command SiteRunFile run_cmd);
      tasks ← create_tasks rest;
      ret (task :: tasks)
  end.

(** [for run_cmd, run_task in zip(run_cmds, run_tasks)]: the file name is
    the last word of the command. *)
Fixpoint gather (pairs : list (cmd * result (Z * string)))
    : M (list (string * string)) :=
  match pairs with
  | [] => ret []
  | (run_cmd, run_task) :: rest =>
      r ← await_task run_task;
      output ← gather rest;
      ret ((List.last run_cmd EmptyString, Str.strip r.2) :: output)
  end.

(** The commands of the two nested loops over the patterns and the
    matching files. *)
Definition per_file_commands (h : list event) (command : cmd)
    (paths : gset string) (patterns : list string) : list cmd :=
  flat_map
    (fun pattern =>
       map (fun filepath => command ++ [filepath])
           (filter (fun filepath => tags_text W h filepath = true)
                   (fnmatch_filter paths pattern)))
    patterns.

Definition run_per_file (c : config) (ignore_paths : option (list string))
    (path config_dir : option string) : coroutine (list (string * string)) :=
  Coroutine (
    let ignore_paths := Some (or_list ignore_paths) in
    let path := or_str path (getcwd P) in
    command ← read (fun h => run_config h c config_dir);
    let patterns := dict_get (get_language c) PATTERNS in
    paths ← read (fun h => all_filenames_in_dir h (Some path) ignore_paths);
    patterns ← read (fun _ => iterate patterns);
    run_cmds ← read (fun h => Ok (per_file_commands h command paths patterns));
    run_tasks ← create_tasks run_cmds;
    gather (zip run_cmds run_tasks)).

(** *** run_linters *)

(** [config.get(...)] when [config] is the result of [LINTERS.get]. *)
Definition deref (c : option config) : M config :=
  match c with
  | Some c => ret c
  | None => raise AttributeError
  end.

(** The first [try] block of the loop body: install, then run.  The call
    [run_per_file(config, ignore_paths, config_dir)] binds its third
    argument to the parameter [path]. *)
Definition install_and_run (install autorun : bool)
    (ignore_paths : option (list string)) (config_dir : option string)
    (c : option config) : M raw_output :=
  c ← deref c;
  _ ← (if (install || autorun) && list_truthy (get_install c)
       then await (install_linter c) else ret tt);
  if get_run_per_file c then
    output ← await (run_per_file c ignore_paths config_dir None);
    ret (OutList output)
  else
    command ← read (fun h => run_config h c config_dir);
    r ← await (run_command SiteRun command);
    ret (OutStr (Str.strip r.2)).

(** The set comprehension that prepends the linter name and leaves out the
    ignored paths. *)
Fixpoint prefix_and_filter (linter : string)
    (ignore_paths : option (list string)) (linter_messages : list diagnostic)
    : result (gset diagnostic) :=
  match linter_messages with
  | [] => Ok ∅
  | msg :: rest =>
      ignored ← should_ignore_path msg.1.1 ignore_paths;
      others ← prefix_and_filter linter ignore_paths rest;
      Ok (if ignored : bool then others
          else {[ (msg.1.1, msg.1.2, linter +:+ ": " +:+ msg.2) ]} ∪ others)
  end.

(** The second [try] block: parse, and add to [messages]. *)
Definition parse_and_add (linter : string) (c : option config)
    (ignore_paths : option (list string)) (output : raw_output)
    (messages : Messages.t) : M Messages.t :=
  if output_truthy output then
    c ← deref c;
    _ ← log (EvParse linter output);
    linter_messages ← read (fun _ => parse W (get_parser c) output);
    linter_messages ←
      read (fun _ => prefix_and_filter linter ignore_paths linter_messages);
    ret (Messages.add_messages messages linter_messages)
  else ret messages.

(** The loop body after the stop check. *)
Definition run_linter (install autorun : bool)
    (ignore_paths : option (list string)) (config_dir : option string)
    (linter : string) (messages : Messages.t) : M Messages.t :=
  let c := dict_get linter LINTERS in
  output ← try_except (install_and_run install autorun ignore_paths config_dir c)
             except_Exception (fun _ => ret (OutStr EmptyString));
  try_except (parse_and_add linter c ignore_paths output messages)
    except_Exception (fun _ => ret messages).

(** [system.should_stop()] *)
Definition system_should_stop : M bool := fun self =>
  (Ok (should_stop W (history self)),
   {| previous_install_commands := previous_install_commands self;
      history := history self ++ [EvShouldStop] |}).

(** [for linter in ...: if system.should_stop(): return ...] *)
Fixpoint run_loop (install autorun : bool)
    (ignore_paths : option (list string)) (config_dir : option string)
    (linters : list string) (messages : Messages.t) : M (gset diagnostic) :=
  match linters with
  | [] => ret (Messages.get_messages messages)
  | linter :: rest =>
      stop ← system_should_stop;
      if stop : bool then ret (Messages.get_messages messages)
      else
        messages ← run_linter install autorun ignore_paths config_dir
                     linter messages;
        run_loop install autorun ignore_paths config_dir rest messages
  end.

Definition run_linters (install autorun : bool)
    (ignore_paths : option (list string)) (config_dir : option string)
    (enabled_linters disabled_linters : option (list string))
    (trusted : bool) : coroutine (gset diagnostic) :=
  Coroutine (
    let messages := Messages.new in
    _ ← cleanup;
    _ ← await performance_hacks;
    _ ← (if trusted && (install || autorun)
         then expr_stmt install_trusted else ret tt);
    linters ← read (fun h => linters_to_run h autorun ignore_paths
                               enabled_linters disabled_linters);
    run_loop install autorun ignore_paths config_dir
      (iter_set W linters) messages).

(** [lint]: [event_loop.run_until_complete(run_linters(...))] *)
Definition lint (install autorun : bool)
    (ignore_paths : option (list string)) (config_dir : option string)
    (enabled_linters disabled_linters : option (list string))
    (trusted : bool) : M (gset diagnostic) :=
  await (run_linters install autorun ignore_paths config_dir
           enabled_linters disabled_linters trusted).

End LinterRunner.

(** ** A POSIX host *)

(** [posixpath] and [fnmatch] as they behave on a POSIX host whose current
    directory is [/proj], for the concrete runs below. *)
Module Posix.

Definition slash : ascii := "/"%char.

Definition join_with (sep : string) (parts : list string) : string :=
  match parts with
  | [] => EmptyString
  | p :: ps => fold_left (fun acc q => acc +:+ sep +:+ q) ps p
  end.

Definition ends_with_slash (s : string) : bool :=
  match rev (list_ascii_of_string s) with
  | c :: _ => Ascii.eqb c slash
  | [] => false
  end.

(** [posixpath.join(a, b)] *)
Definition join (a b : string) : string :=
  if Str.startswith b "/" then b
  else if negb (Str.truthy a) || ends_with_slash a then a +:+ b
  else a +:+ "/" +:+ b.

(** The component stack of [posixpath.normpath]. *)
Fixpoint norm_comps (rooted : bool) (comps : list string)
    (new_comps : list string) : list string :=
  match comps with
  | [] => new_comps
  | comp :: rest =>
      if String.eqb comp "" || String.eqb comp "." then
        norm_comps rooted rest new_comps
      else if negb (String.eqb comp "..")
              || (negb rooted && negb (list_truthy new_comps))
              || (match rev new_comps with
                  | l :: _ => String.eqb l ".."
                  | [] => false
                  end)
      then norm_comps rooted rest (new_comps ++ [comp])
      else norm_comps rooted rest (removelast new_comps)
  end.

(** [posixpath.normpath]; exactly two leading slashes are kept. *)
Definition normpath (path : string) : string :=
  if negb (Str.truthy path) then "."
  else
    let initial_slashes :=
      if Str.startswith path "/" then
        if Str.startswith path "//" && negb (Str.startswith path "///")
        then "//" else "/"
      else "" in
    let comps :=
      norm_comps (Str.truthy initial_slashes) (Str.split slash path) [] in
    let path := initial_slashes +:+ join_with "/" comps in
    if Str.truthy path then path else ".".

Definition cwd : string := "/proj".

(** [posixpath.abspath] *)
Definition abspath (path : string) : string :=
  if Str.startswith path "/" then normpath path
  else normpath (join cwd path).

Definition nonempty_parts (path : string) : list string :=
  filter (fun x => Str.truthy x = true) (Str.split slash path).

Fixpoint common_prefix_length (a b : list string) : nat :=
  match a, b with
  | x :: a', y :: b' =>
      if String.eqb x y then S (common_prefix_length a' b') else 0
  | _, _ => 0
  end.

(** [posixpath.relpath(path)]: [ValueError] on the empty path. *)
Definition relpath (path : string) : result string :=
  if negb (Str.truthy path) then Raise ValueError
  else
    let start_list := nonempty_parts (abspath ".") in
    let path_list := nonempty_parts (abspath path) in
    let i := common_prefix_length start_list path_list in
    let rel_list :=
      repeat ".." (length start_list - i) ++ drop i path_list in
    match rel_list with
    | [] => Ok "."
    | p :: ps => Ok (fold_left join ps p)
    end.

(** [fnmatch.fnmatch] for patterns built from literals, [*] and [?]. *)
Fixpoint glob (pat : list ascii) (name : list ascii) {struct pat} : bool :=
  match pat with
  | [] => match name with [] => true | _ :: _ => false end
  | p :: pat' =>
      if Ascii.eqb p "*" then
        (fix star (name : list ascii) : bool :=
           glob pat' name ||
           match name with
           | [] => false
           | _ :: name' => star name'
           end) name
      else
        match name with
        | [] => false
        | c :: name' =>
            (Ascii.eqb p "?" || Ascii.eqb p c) && glob pat' name'
        end
  end.

Definition fnmatch (name pat : string) : bool :=
  glob (list_ascii_of_string pat) (list_ascii_of_string name).

(** The package is installed under [/opt/inlineplz]. *)
Definition platform : Platform :=
  Build_Platform
    slash join normpath relpath fnmatch cwd
    "/usr/bin/python3"
    (fun path => normpath (join "/opt/inlineplz/bin" path))
    ":"
    "/opt/inlineplz/linters/config".

End Posix.

(** ** Concrete worlds *)

Module Example.

(** A world whose answers do not change during the run: one project tree
    at the current directory, every file text, sets iterated in the order
    of [elements]. *)
Definition world (project : dir) (exec : list event -> cmd -> outcome)
    (should_stop : list event -> bool)
    (parse : string -> raw_output -> result (list diagnostic)) : World :=
  {| fs := fun _ path =>
             if String.eqb path Posix.cwd then Some project else None;
     tags_text := fun _ _ => true;
     exec := exec;
     should_stop := should_stop;
     parse := parse;
     iter_set := elements;
     iter_set_perm := fun s => reflexivity (elements s) |}.

(** Every command exits with 0 and prints nothing. *)
Definition quiet : list event -> cmd -> outcome :=
  fun _ _ => Exited 0 EmptyString EmptyString.

Definition never_stop : list event -> bool := fun _ => false.

Definition no_findings : string -> raw_output -> result (list diagnostic) :=
  fun _ _ => Ok [].

Definition LINTERS := Registry.LINTERS Posix.platform.
Definition PATTERNS := Registry.PATTERNS.
Definition TRUSTED_INSTALL := Registry.TRUSTED_INSTALL Posix.platform.
Definition INSTALL_DIRS := Registry.INSTALL_DIRS.

(** [LinterRunner().linters_to_run(...)] in a project. *)
Definition select (project : dir) :=
  linters_to_run Posix.platform (world project quiet never_stop no_findings)
    LINTERS PATTERNS [].

End Example.

(** Runs of two whole-project tools, [bandit] and [yamllint], in a project
    without marker files, with the ignore rule [vendor]. *)
Module Scenario.

Definition project : dir := Dir [] ["a.yaml"; "app.py"].

Definition ignore_paths : option (list string) := Some ["vendor"].

(** Every tool prints one report. *)
Definition all_run : list event -> cmd -> outcome :=
  fun _ _ => Exited 0 "report" EmptyString.

(** [bandit] cannot be spawned; every other command prints one report. *)
Definition bandit_missing : list event -> cmd -> outcome :=
  fun _ command =>
    match command with
    | name :: _ =>
        if String.eqb name "bandit" then Failed OSError
        else Exited 0 "report" EmptyString
    | [] => Failed OSError
    end.

(** Every parser finds the same three diagnostics, two of them equal and
    one under [vendor]. *)
Definition findings : list diagnostic :=
  [("a.yaml", 1%Z, "too long"); ("a.yaml", 1%Z, "too long");
   ("vendor/b.yaml", 2%Z, "bad")].

Definition parse_findings : string -> raw_output -> result (list diagnostic) :=
  fun _ _ => Ok findings.

Definition is_parse (ev : event) : bool :=
  match ev with
  | EvParse _ _ => true
  | _ => false
  end.

(** The stop signal is set once a tool has been parsed. *)
Definition stop_after_parse : list event -> bool :=
  fun h => existsb is_parse h.

Definition one_fails : World :=
  Example.world project bandit_missing Example.never_stop parse_findings.

Definition stopped : World :=
  Example.world project all_run stop_after_parse parse_findings.

(** The loop of [run_linters] over the two tools, on a fresh runner. *)
Definition run (W : World) :=
  run_loop Posix.platform W Example.LINTERS Example.PATTERNS false false
    ignore_paths None ["bandit"; "yamllint"] Messages.new new_runner.

Definition bandit_command : cmd :=
  ["bandit"; "-f"; "json"; "-iii"; "-ll"; "-r"; "."; "-c";
   "/opt/inlineplz/linters/config/bandit.yaml"].

Definition yamllint_command : cmd :=
  ["yamllint"; "-c"; "/opt/inlineplz/linters/config/.yamllint"; "-f";
   "parsable"; "."].



Definition nothing_installed : World :=
  Example.world project (fun _ _ => Exited 1 EmptyString EmptyString)
    Example.never_stop Example.no_findings.

End Scenario.

(** ** Vocabulary of the statements *)

(** The enabled or disabled list once the comma-separated first item has
    been split and appended. *)
Definition merged (l : option (list string)) : list string :=
  match or_list l with
  | [] => []
  | first :: rest => (first :: rest) ++ Str.split "," first
  end.

(** The runner after further events. *)
Definition with_events (self : runner) (evs : list event) : runner :=
  {| previous_install_commands := previous_install_commands self;
     history := history self ++ evs |}.


(** The commands handed to the Process Executor, from any place. *)
Fixpoint executed_commands (evs : list event) : list cmd :=
  match evs with
  | [] => []
  | EvExec _ command :: evs' => command :: executed_commands evs'
  | _ :: evs' => executed_commands evs'
  end.

(** The number of stop checks among some events. *)
Fixpoint stop_checks (evs : list event) : nat :=
  match evs with
  | [] => 0
  | EvShouldStop :: evs' => S (stop_checks evs')
  | _ :: evs' => stop_checks evs'
  end.

(** What every run does first: [cleanup], then [performance_hacks]. *)
Definition opening_events (INSTALL_DIRS : list string) : list event :=
  map EvRmtree INSTALL_DIRS ++ [EvExec SitePerf ["npm"; "set"; "progress=false"]].

(** An event that is not a command of [install_trusted]. *)
Definition not_trusted (ev : event) : Prop :=
  forall command, ev <> EvExec SiteTrusted command.

(** An event that is not a stop check. *)
Definition not_stop_check (ev : event) : Prop := ev <> EvShouldStop.

(** The tool boundaries of a run.  [reaches linters messages self linters'
    messages' self'] says that the loop started on [linters], with
    [messages] accumulated and the runner [self], comes to the top of the
    loop with [linters'] left, [messages'] accumulated and the runner
    [self']: every stop check on the way answered no, and every tool on the
    way ran its loop body to the end. *)
Inductive reaches (P : Platform) (W : World) (LINTERS : list (string * config))
    (PATTERNS : list (string * list string)) (install autorun : bool)
    (ignore_paths : option (list string)) (config_dir : option string)
    : list string -> Messages.t -> runner ->
      list string -> Messages.t -> runner -> Prop :=
  | reaches_here linters messages self :
      reaches P W LINTERS PATTERNS install autorun ignore_paths config_dir
        linters messages self linters messages self
  | reaches_next linter linters messages self messages1 self1
                 linters' messages' self' :
      should_stop W (history self) = false ->
      run_linter P W LINTERS PATTERNS install autorun ignore_paths config_dir
        linter messages (with_events self [EvShouldStop])
      = (Ok messages1, self1) ->
      reaches P W LINTERS PATTERNS install autorun ignore_paths config_dir
        linters messages1 self1 linters' messages' self' ->
      reaches P W LINTERS PATTERNS install autorun ignore_paths config_dir
        (linter :: linters) messages self linters' messages' self'.

(** Whatever [m] returns or raises, the runner it leaves is related by [R]
    to the one it started from. *)
Definition respects (R : runner -> runner -> Prop) {A} (m : M A) : Prop :=
  forall self, R self (m self).2.

(** The history has grown, by events that all satisfy [Q]. *)
Definition emits (Q : event -> Prop) (s s' : runner) : Prop :=
  exists new, history s' = history s ++ new /\ Forall Q new.




(** Two tools whose install lists hold the same command, which is also
    the help command of both; nothing is installed, so every help probe
    fails and every install command not yet in the ledger is run. *)
Module Overlap.

Definition shared : cmd := ["tool"; "--install"].

Definition table : list (string * config) := [
  ("alpha", Registry.entry [shared] shared ["alpha"] ["alpha"] []
              "AlphaParser" "python" false false);
  ("beta", Registry.entry [shared] shared ["beta"] ["beta"] []
             "BetaParser" "python" false false)
].

(** [lint(install=True, ignore_paths=[], enabled_linters=["alpha,beta"])]
    on a fresh runner. *)
Definition run : result (gset diagnostic) * runner :=
  lint Posix.platform Scenario.nothing_installed table Example.PATTERNS
    Example.TRUSTED_INSTALL Example.INSTALL_DIRS true false (Some []) None
    (Some ["alpha,beta"]) None false new_runner.

End Overlap.

(** Small tables and worlds for the further properties. *)
Module Cases.

(** An autorun tool with a marker file, a tool that must be enabled by
    name, and an autorun per-file tool. *)
Definition pytool : config :=
  Registry.entry [["pip"; "install"; "pytool"]] ["pytool"; "-h"] ["pytool"]
    ["pytool"; "-c"; "{config_dir}/.pytoolrc"] [".pytoolrc"] "PyToolParser"
    "python" true false.

Definition manual : config :=
  Registry.entry [] ["manual"; "-h"] ["manual"] ["manual"] [] "ManualParser"
    "python" false false.

Definition perfile : config :=
  Registry.entry [] ["perfile"; "-h"] ["perfile"] ["perfile"] []
    "PerFileParser" "python" true true.

Definition table : list (string * config) :=
  [("pytool", pytool); ("manual", manual); ("perfile", perfile)].

Definition plain_project : dir := Dir [] ["app.py"].

Definition marked_project : dir := Dir [] [".pytoolrc"; "app.py"].

Definition vendored_project : dir :=
  Dir [("src", Dir [] ["main.py"]); ("vendor", Dir [] ["v.py"])] ["app.py"].

Definition plain : World :=
  Example.world plain_project Example.quiet Example.never_stop
    Example.no_findings.

Definition marked : World :=
  Example.world marked_project Example.quiet Example.never_stop
    Example.no_findings.

Definition vendored : World :=
  Example.world vendored_project Example.quiet Example.never_stop
    Example.no_findings.

(** No command can be spawned. *)
Definition nothing_spawns : World :=
  Example.world plain_project (fun _ _ => Failed OSError) Example.never_stop
    Example.no_findings.

(** Every command prints a report with white space around it. *)
Definition padded : World :=
  Example.world plain_project
    (fun _ _ => Exited 0 "  report " EmptyString) Example.never_stop
    Example.no_findings.

(** Every parser raises. *)
Definition unparsable : World :=
  Example.world plain_project Scenario.all_run Example.never_stop
    (fun _ _ => Raise ValueError).

Definition select (W : World) :=
  linters_to_run Posix.platform W table Example.PATTERNS [].

End Cases.

(** ** Vocabulary of the further properties *)

(** Every path of [acc.1] is a text file joined to a directory of [acc.2]
    that the ignore rules do not match. *)
Definition collected_from (P : Platform) (W : World) (h : list event)
    (ignore_paths : option (list string)) (acc : gset string * list string)
    : Prop :=
  forall p, p ∈ acc.1 ->
    exists root filename,
      root ∈ acc.2
      /\ should_ignore_path P root ignore_paths = Ok false
      /\ tags_text W h p = true
      /\ p = path_join P root filename.

(** * Properties *)

(** ** Results *)

Lemma bind_Ok {A B} (f : A -> result B) (a : A) : (Ok a ≫= f) = f a.
Proof. reflexivity. Qed.

Lemma bind_Raise {A B} (f : A -> result B) (e : exn) :
  (Raise e ≫= f) = Raise e.
Proof. reflexivity. Qed.

Lemma bind_inv_Ok {A B} (m : result A) (f : A -> result B) (b : B) :
  (m ≫= f) = Ok b -> exists a, m = Ok a /\ f a = Ok b.
Proof. destruct m as [a|e]; simpl; [eauto | discriminate]. Qed.

Lemma for_each_invariant {A S} (I : S -> Prop) (body : A -> S -> result S) :
  (forall x s s', I s -> body x s = Ok s' -> I s') ->
  forall l s s', I s -> for_each l body s = Ok s' -> I s'.
Proof.
  intros Hbody l. induction l as [|x l IH]; simpl; intros s s' Hs Hrun.
  - congruence.
  - apply bind_inv_Ok in Hrun as (s1 & H1 & H2). eauto.
Qed.

(** ** The selector *)

Section Selector.

Variable P : Platform.
Variable W : World.
Variable LINTERS : list (string * config).
Variable PATTERNS : list (string * list string).

Lemma extend_split_merged (l : option (list string)) :
  extend_split (or_list l) = Ok (merged l).
Proof. unfold extend_split, merged. destruct (or_list l); reflexivity. Qed.

Lemma select_enabled_acc (enabled : list string) (items : list (string * config))
    (acc : gset string) (x : string) :
  x ∈ foldl (fun linters (item : string * config) =>
               if bool_decide (item.1 ∈ enabled)
               then linters ∪ {[item.1]} else linters) acc items
  <-> x ∈ acc \/ (x ∈ items.*1 /\ x ∈ enabled).
Proof.
  revert acc. induction items as [|[name c] items IH]; intros acc; simpl.
  - set_solver.
  - rewrite IH. case_bool_decide; set_solver.
Qed.

Lemma add_unless_disabled_elem (linter : string) (disabled : list string)
    (linters : gset string) (x : string) :
  x ∈ add_unless_disabled linter disabled linters
  <-> x ∈ linters \/ (x = linter /\ linter ∉ disabled).
Proof. unfold add_unless_disabled. case_bool_decide; set_solver. Qed.

Lemma dotfile_step_respects_disabled h disabled item s s' :
  (forall x, x ∈ s.2 -> x ∉ disabled) ->
  dotfile_step P W h disabled item s = Ok s' ->
  forall x, x ∈ s'.2 -> x ∉ disabled.
Proof.
  destruct item as [linter c], s as [found linters]. unfold dotfile_step.
  intros Hs Hstep. apply bind_inv_Ok in Hstep as (b & _ & Hstep).
  destruct b; simpl in *.
  - destruct (opt_truthy _ && negb (bool_decide (linter ∈ disabled))) eqn:Hadd;
      destruct (found_for _ _ && get_autorun c);
      inversion Hstep; subst; simpl; intros x;
      rewrite ?add_unless_disabled_elem;
      try (apply andb_true_iff in Hadd as [_ Hadd];
           apply negb_true_iff, bool_decide_eq_false in Hadd);
      set_solver.
  - destruct (found_for _ _ && get_autorun c);
      inversion Hstep; subst; simpl; intros x;
      rewrite ?add_unless_disabled_elem; set_solver.
Qed.

Lemma pattern_step_respects_disabled enabled disabled found filenames item
    (s s' : gset string) :
  (forall x, x ∈ s -> x ∉ disabled) ->
  pattern_step P W PATTERNS enabled disabled found filenames item s = Ok s' ->
  forall x, x ∈ s' -> x ∉ disabled.
Proof.
  destruct item as [linter c]. unfold pattern_step. intros Hs Hstep.
  apply bind_inv_Ok in Hstep as (b & _ & Hstep).
  destruct b; inversion Hstep; subst; intros x;
    rewrite ?add_unless_disabled_elem; set_solver.
Qed.

(** In autorun mode every insertion is guarded: the selected set has no
    tool of the disabled list. *)
Lemma autorun_respects_disabled h ignore_paths enabled disabled s :
  linters_to_run P W LINTERS PATTERNS h true ignore_paths enabled disabled
    = Ok s ->
  forall x, x ∈ merged disabled -> x ∉ s.
Proof.
  unfold linters_to_run. rewrite !extend_split_merged, !bind_Ok. simpl negb.
  cbv iota. intros Hrun x Hx Hin.
  apply bind_inv_Ok in Hrun as ([found linters] & Hfirst & Hrun).
  apply bind_inv_Ok in Hrun as (filenames & _ & Hrun).
  assert (Hlinters : forall y, y ∈ linters -> y ∉ merged disabled).
  { change linters with ((found, linters).2).
    eapply (for_each_invariant
              (fun st : gmap string bool * gset string =>
                 forall y, y ∈ st.2 -> y ∉ merged disabled));
      [ | | exact Hfirst ].
    - intros item st st' Hst Hstep.
      eapply dotfile_step_respects_disabled; eauto.
    - simpl. set_solver. }
  assert (Hs : forall y, y ∈ s -> y ∉ merged disabled).
  { eapply (for_each_invariant (fun st : gset string =>
                                  forall y, y ∈ st -> y ∉ merged disabled));
      [ | exact Hlinters | exact Hrun ].
    intros item st st' Hst Hstep.
    eapply pattern_step_respects_disabled; eauto. }
  exact (Hs x Hin Hx).
Qed.

End Selector.

(** ** Selection without autorun *)

(** C1 (the code departs from the claim): with [autorun] false the loop
    adds every enabled tool without looking at the disabled list, so a tool
    that is both enabled and disabled is selected.  Here, on the table of
    the module, for any host, any world and any ignore list: [bandit]
    enabled and disabled gives the set [{bandit}]. *)
Theorem enabled_and_disabled_is_selected :
  forall (P : Platform) (W : World) (h : list event)
         (ignore_paths : option (list string)),
    linters_to_run P W (Registry.LINTERS P) Registry.PATTERNS h false
      ignore_paths (Some ["bandit"]) (Some ["bandit"])
    = Ok {["bandit"]}.
Proof. intros P W h ignore_paths. vm_compute. reflexivity. Qed.

(** C6: with [autorun] false the selector returns the tools of the table
    that are named in the enabled list, the items of its comma-separated
    first entry included, and nothing else; the world, the ignore list and
    the disabled list play no part, and nothing is raised. *)
Theorem without_autorun_selects_enabled :
  forall (P : Platform) (W : World) (LINTERS : list (string * config))
         (PATTERNS : list (string * list string)) (h : list event)
         (ignore_paths enabled_linters disabled_linters : option (list string)),
  exists s : gset string,
    linters_to_run P W LINTERS PATTERNS h false ignore_paths
      enabled_linters disabled_linters = Ok s
    /\ forall linter : string,
         linter ∈ s <-> linter ∈ LINTERS.*1 /\ linter ∈ merged enabled_linters.
Proof.
  intros. eexists. split.
  - unfold linters_to_run. rewrite !extend_split_merged, !bind_Ok.
    reflexivity.
  - intros linter. unfold select_enabled. rewrite select_enabled_acc.
    set_solver.
Qed.

(** ** The marker cascade *)

Section Cascade.

Variable P : Platform.
Variable W : World.
Variable LINTERS : list (string * config).
Variable PATTERNS : list (string * list string).

Lemma for_each_app {A S} (l1 l2 : list A) (body : A -> S -> result S) (s : S) :
  for_each (l1 ++ l2) body s = (for_each l1 body s ≫= for_each l2 body).
Proof.
  revert s. induction l1 as [|x l1 IH]; intros s; simpl; [reflexivity|].
  destruct (body x s) as [s1|e]; simpl; [apply IH | reflexivity].
Qed.

Lemma found_for_insert (found : gmap string bool) (k language : string) :
  found_for found language = true ->
  found_for (<[k := true]> found) language = true.
Proof.
  unfold found_for. destruct (decide (k = language)) as [->|Hne].
  - intros _. by rewrite lookup_insert_eq.
  - by rewrite lookup_insert_ne.
Qed.

Lemma found_for_insert_eq (found : gmap string bool) (language : string) :
  found_for (<[language := true]> found) language = true.
Proof. unfold found_for. by rewrite lookup_insert_eq. Qed.

(** A marker once recorded stays recorded, and no tool is taken out. *)
Lemma dotfile_step_keeps h disabled item s s' language :
  dotfile_step P W h disabled item s = Ok s' ->
  (found_for s.1 language = true -> found_for s'.1 language = true)
  /\ s.2 ⊆ s'.2.
Proof.
  destruct item as [linter c], s as [found linters]. unfold dotfile_step.
  intros Hstep. apply bind_inv_Ok in Hstep as (b & _ & Hstep).
  destruct b; simpl in *;
    repeat match type of Hstep with
           | context [if ?b then _ else _] => destruct b
           end;
    inversion Hstep; subst; simpl; unfold add_unless_disabled;
    try case_bool_decide;
    (split; [first [apply found_for_insert | tauto] | set_solver]).
Qed.

Lemma dotfile_step_marks h disabled linter c s s' :
  dotfiles_exist P W h c None = Ok true ->
  dotfile_step P W h disabled (linter, c) s = Ok s' ->
  found_for s'.1 (get_language c) = true.
Proof.
  destruct s as [found linters]. unfold dotfile_step. intros ->.
  rewrite bind_Ok. rewrite found_for_insert_eq. simpl.
  destruct (opt_truthy _ && _), (get_autorun c);
    intros Hstep; inversion Hstep; subst; simpl; apply found_for_insert_eq.
Qed.

Lemma dotfile_step_cascades h disabled linter c s s' :
  found_for s.1 (get_language c) = true ->
  get_autorun c = true ->
  linter ∉ disabled ->
  dotfile_step P W h disabled (linter, c) s = Ok s' ->
  linter ∈ s'.2.
Proof.
  destruct s as [found linters]. unfold dotfile_step. simpl.
  intros Hfound Hauto Hdis Hstep.
  apply bind_inv_Ok in Hstep as (b & _ & Hstep). rewrite Hauto in Hstep.
  destruct b.
  - rewrite found_for_insert_eq in Hstep. simpl in Hstep.
    destruct (opt_truthy _ && _); inversion Hstep; subst; simpl;
      rewrite add_unless_disabled_elem; tauto.
  - simpl in Hstep. rewrite Hfound in Hstep. simpl in Hstep.
    inversion Hstep; subst; simpl. rewrite add_unless_disabled_elem; tauto.
Qed.

Lemma pattern_step_keeps enabled disabled found filenames item
    (s s' : gset string) :
  pattern_step P W PATTERNS enabled disabled found filenames item s = Ok s' ->
  s ⊆ s'.
Proof.
  destruct item as [linter c]. unfold pattern_step. intros Hstep.
  apply bind_inv_Ok in Hstep as (b & _ & Hstep).
  destruct b; inversion Hstep; subst; unfold add_unless_disabled;
    try case_bool_decide; set_solver.
Qed.

(** What the first loop does give: a marker found for the tool [a] reaches
    every autorun tool [b] of the same language that the table lists after
    [a]. *)
Lemma cascade_reaches_later_tools pre a ca mid b cb post h ignore_paths
    enabled disabled s :
  LINTERS = pre ++ (a, ca) :: mid ++ (b, cb) :: post ->
  dotfiles_exist P W h ca None = Ok true ->
  get_language cb = get_language ca ->
  get_autorun cb = true ->
  b ∉ merged disabled ->
  linters_to_run P W LINTERS PATTERNS h true ignore_paths enabled disabled
    = Ok s ->
  b ∈ s.
Proof.
  intros HL Hmark Hlang Hauto Hdis. unfold linters_to_run.
  rewrite !extend_split_merged, !bind_Ok. simpl negb. cbv iota.
  intros Hrun.
  apply bind_inv_Ok in Hrun as ([found linters] & Hfirst & Hrun).
  apply bind_inv_Ok in Hrun as (filenames & _ & Hrun).
  assert (Hb : b ∈ linters).
  { rewrite HL, for_each_app in Hfirst.
    apply bind_inv_Ok in Hfirst as (s1 & _ & Hfirst). simpl in Hfirst.
    apply bind_inv_Ok in Hfirst as (s2 & Ha & Hfirst).
    rewrite for_each_app in Hfirst.
    apply bind_inv_Ok in Hfirst as (s3 & Hmid & Hfirst). simpl in Hfirst.
    apply bind_inv_Ok in Hfirst as (s4 & Hstepb & Hpost).
    pose proof (dotfile_step_marks _ _ _ _ _ _ Hmark Ha) as Hs2.
    assert (Hs3 : found_for s3.1 (get_language ca) = true).
    { eapply (for_each_invariant
                (fun st : gmap string bool * gset string =>
                   found_for st.1 (get_language ca) = true));
        [ | exact Hs2 | exact Hmid ].
      intros item st st' Hst Hstep.
      by apply (dotfile_step_keeps _ _ _ _ _ (get_language ca) Hstep). }
    rewrite <- Hlang in Hs3.
    pose proof (dotfile_step_cascades _ _ _ _ _ _ Hs3 Hauto Hdis Hstepb) as Hs4.
    change linters with ((found, linters).2).
    eapply (for_each_invariant
              (fun st : gmap string bool * gset string => b ∈ st.2));
      [ | exact Hs4 | exact Hpost ].
    intros item st st' Hst Hstep.
    destruct (dotfile_step_keeps _ _ _ _ _ (get_language ca) Hstep) as [_ Hsub].
    set_solver. }
  eapply (for_each_invariant (fun st : gset string => b ∈ st));
    [ | exact Hb | exact Hrun ].
  intros item st st' Hst Hstep. apply pattern_step_keeps in Hstep. set_solver.
Qed.

End Cascade.

(** C3 (the code departs from the claim): the first loop records a marker
    and cascades it in one pass, so a tool listed before the owner of the
    marker is not reached, and the pattern pass then skips it because its
    language has a marker.  In the table, [detect-secrets] (no marker
    files, autorun) comes before [eclint] (marker [.editorconfig]), both of
    language [all]: in a project with [app.py] the file [.editorconfig]
    removes [detect-secrets] from the selection. *)
Theorem cascade_misses_earlier_tool :
  (exists ds ec : config,
      dict_get "detect-secrets" Example.LINTERS = Some ds
      /\ dict_get "eclint" Example.LINTERS = Some ec
      /\ get_language ds = get_language ec
      /\ get_dotfiles ds = [] /\ get_dotfiles ec = [".editorconfig"]
      /\ get_autorun ds = true)
  /\ Example.select (Dir [] [".editorconfig"; "app.py"]) true (Some [])
       None None = Ok {["bandit"; "prospector"]}
  /\ ("detect-secrets" ∉ ({["bandit"; "prospector"]} : gset string))
  /\ Example.select (Dir [] ["app.py"]) true (Some []) None None
     = Ok {["bandit"; "detect-secrets"; "prospector"]}.
Proof.
  split; [| split; [| split]].
  - do 2 eexists. repeat split; vm_compute; reflexivity.
  - vm_compute. reflexivity.
  - apply (bool_decide_unpack _). vm_compute. exact I.
  - vm_compute. reflexivity.
Qed.

(** ** The scanner *)

(** Induction on a directory tree, with the property known for every
    sub-directory. *)
Lemma dir_nested_ind (Q : dir -> Prop) :
  (forall subdirs filenames,
      Forall (fun entry : string * dir => Q entry.2) subdirs ->
      Q (Dir subdirs filenames)) ->
  forall d, Q d.
Proof.
  intros Hdir. fix IH 1. intros [subdirs filenames]. apply Hdir.
  induction subdirs as [|[name sub] l IHl]; constructor;
    [apply IH | exact IHl].
Qed.

Section Scanner.

Variable P : Platform.
Variable W : World.

Lemma list_remove_Ok (x : string) (l l' : list string) :
  list_remove x l = Ok l' -> x ∈ l /\ l' ⊆ l /\ (NoDup l -> NoDup l' /\ x ∉ l').
Proof.
  revert l'. induction l as [|y l IH]; simpl; intros l' H; [discriminate|].
  destruct (String.eqb_spec x y) as [->|Hne].
  - inversion H; subst. split; [set_solver|]. split; [set_solver|].
    intros Hnd. apply NoDup_cons in Hnd. tauto.
  - apply bind_inv_Ok in H as (l'' & Hrem & Heq). inversion Heq; subst.
    destruct (IH _ Hrem) as (Hin & Hsub & Hnd). split; [set_solver|].
    split; [set_solver|]. intros Hnd'. apply NoDup_cons in Hnd' as [Hy Hl].
    destruct (Hnd Hl) as [Hnd1 Hx]. split; [|set_solver].
    apply NoDup_cons. split; [set_solver | exact Hnd1].
Qed.

Lemma remove_ignored_subseteq (ignore_paths dirnames : list string) :
  (remove_ignored ignore_paths dirnames).2 ⊆ dirnames.
Proof.
  revert dirnames. induction ignore_paths as [|r rules IH]; intros dirnames;
    simpl; [set_solver|].
  destruct (list_remove r dirnames) as [d1|e] eqn:Hrem; simpl; [|set_solver].
  apply list_remove_Ok in Hrem as (_ & Hsub & _).
  specialize (IH d1). set_solver.
Qed.

(** When the removal loop runs to its end, every rule has been taken out
    of [dirnames]. *)
Lemma remove_ignored_complete (ignore_paths dirnames dirnames' : list string) :
  NoDup dirnames ->
  remove_ignored ignore_paths dirnames = (Ok tt, dirnames') ->
  forall rule, rule ∈ ignore_paths -> rule ∉ dirnames'.
Proof.
  revert dirnames. induction ignore_paths as [|r rules IH];
    intros dirnames Hnd Hrun rule Hrule; [set_solver|].
  simpl in Hrun.
  destruct (list_remove r dirnames) as [d1|e] eqn:Hrem; [|discriminate].
  apply list_remove_Ok in Hrem as (_ & _ & Hd1).
  destruct (Hd1 Hnd) as [Hnd1 Hr].
  apply elem_of_cons in Hrule as [->|Hrule].
  - pose proof (remove_ignored_subseteq rules d1) as Hsub.
    rewrite Hrun in Hsub. set_solver.
  - eapply IH; eauto.
Qed.

(** A walk whose body never raises returns. *)
Lemma os_walk_returns {A}
    (body : string -> list string -> list string -> A ->
            result (list string * A)) :
  (forall root dirnames filenames a,
      exists r, body root dirnames filenames a = Ok r) ->
  forall d top acc, exists r, os_walk P body top d acc = Ok r.
Proof.
  intros Hbody d. induction d as [subdirs filenames IH] using dir_nested_ind.
  intros top acc. simpl.
  destruct (Hbody top (subdirs.*1) filenames (acc.1)) as [[dirnames a] ->].
  generalize (a, acc.2 ++ [top]). clear acc a.
  induction IH as [|[name sub] l Hsub _ IHl]; intros acc; [eauto|].
  simpl in Hsub. case_bool_decide; [|apply IHl].
  destruct (Hsub (path_join P top name) acc) as [acc' ->]. apply IHl.
Qed.

Lemma scan_directory_empty_rules h root dirnames filenames paths :
  exists r, scan_directory P W h (Some []) root dirnames filenames paths = Ok r.
Proof. unfold scan_directory. simpl. eauto. Qed.

Lemma all_filenames_in_dir_empty_rules h path :
  exists paths, all_filenames_in_dir P W h path (Some []) = Ok paths.
Proof.
  unfold all_filenames_in_dir, walk_filenames.
  destruct (fs W h _) as [d|]; [|simpl; eauto].
  destruct (os_walk_returns (scan_directory P W h (Some []))
              (scan_directory_empty_rules h) d (or_str path (getcwd P)) (∅, []))
    as [r ->].
  simpl. eauto.
Qed.

(** The first turn of the walk with no ignore list. *)
Lemma walk_filenames_None h path d :
  fs W h (or_str path (getcwd P)) = Some d ->
  walk_filenames P W h path None = Raise TypeError.
Proof.
  unfold walk_filenames. intros ->. destruct d as [subdirs filenames].
  reflexivity.
Qed.

End Scanner.

(** C7 (the code departs from the claim): the [try] encloses the whole
    removal loop, so the first rule that names no sub-directory ends it
    and the rules after it prune nothing.  With the rules
    [node_modules, vendor] and a project that has [vendor] only, the walk
    descends into [vendor] and below; with the rule [vendor] alone it does
    not. *)
Theorem pruning_stops_at_first_absent_rule :
  let project :=
    Dir [("vendor", Dir [("pkg", Dir [] ["x.py"])] ["v.py"])] ["app.py"] in
  let W := Example.world project Example.quiet Example.never_stop
             Example.no_findings in
  prune_dirnames (Some ["node_modules"; "vendor"]) ["vendor"] = Ok ["vendor"]
  /\ walk_filenames Posix.platform W [] None (Some ["node_modules"; "vendor"])
     = Ok ({["/proj/app.py"]}, ["/proj"; "/proj/vendor"; "/proj/vendor/pkg"])
  /\ walk_filenames Posix.platform W [] None (Some ["vendor"])
     = Ok ({["/proj/app.py"]}, ["/proj"]).
Proof. repeat split; vm_compute; reflexivity. Qed.

(** ** Method bodies *)

Lemma with_events_nil (self : runner) : with_events self [] = self.
Proof. destruct self. unfold with_events. simpl. by rewrite app_nil_r. Qed.

Lemma with_events_app (self : runner) (a b : list event) :
  with_events (with_events self a) b = with_events self (a ++ b).
Proof. unfold with_events. simpl. by rewrite app_assoc. Qed.

Lemma M_bind_eq {A B} (m : M A) (k : A -> M B) (self : runner) :
  (m ≫= k) self =
  match m self with
  | (Ok a, self') => k a self'
  | (Raise e, self') => (Raise e, self')
  end.
Proof. reflexivity. Qed.

(** [try: ... except Exception:] with a handler that returns leaves no
    exception. *)
Lemma try_except_Exception_returns {A} (m : M A) (handler : exn -> M A)
    (self : runner) :
  (forall e s, exists a s', handler e s = (Ok a, s')) ->
  exists a self', try_except m except_Exception handler self = (Ok a, self').
Proof.
  intros Hh. unfold try_except.
  destruct (m self) as [[a|e] s]; [eauto | apply Hh].
Qed.

(** *** Relations between the runner before and after *)

Section Respects.

Variable R : runner -> runner -> Prop.
Hypothesis R_refl : forall s, R s s.
Hypothesis R_trans : forall a b c, R a b -> R b c -> R a c.

Local Abbreviation respects := (respects R).

Lemma respects_ret {A} (a : A) : respects (mret a : M A).
Proof. intros self. apply R_refl. Qed.

Lemma respects_raise {A} (e : exn) : respects (raise e : M A).
Proof. intros self. apply R_refl. Qed.

Lemma respects_read {A} (f : list event -> result A) : respects (read f).
Proof. intros self. apply R_refl. Qed.

Lemma respects_bind {A B} (m : M A) (k : A -> M B) :
  respects m -> (forall a, respects (k a)) -> respects (m ≫= k).
Proof.
  intros Hm Hk self. rewrite M_bind_eq. specialize (Hm self).
  destruct (m self) as [[a|e] s]; simpl in *; [|exact Hm].
  eapply R_trans; [exact Hm | apply Hk].
Qed.

Lemma respects_try_except {A} (m : M A) (classes : exn -> bool)
    (handler : exn -> M A) :
  respects m -> (forall e, respects (handler e)) ->
  respects (try_except m classes handler).
Proof.
  intros Hm Hh self. unfold try_except. specialize (Hm self).
  destruct (m self) as [[a|e] s]; simpl in *; [exact Hm|].
  destruct (classes e); [|exact Hm].
  eapply R_trans; [exact Hm | apply Hh].
Qed.

Lemma respects_if {A} (b : bool) (m1 m2 : M A) :
  respects m1 -> respects m2 -> respects (if b then m1 else m2).
Proof. by destruct b. Qed.

Lemma respects_branch {A} (test : runner -> bool) (m1 m2 : M A) :
  respects m1 -> respects m2 ->
  respects (fun self => if test self then m1 self else m2 self).
Proof. intros H1 H2 self. destruct (test self); [apply H1 | apply H2]. Qed.

Lemma respects_deref (c : option config) : respects (deref c).
Proof. destruct c; [apply respects_ret | apply respects_raise]. Qed.

Lemma respects_await_task {A} (task : result A) : respects (await_task task).
Proof. destruct task; [apply respects_ret | apply respects_raise]. Qed.

Lemma respects_expr_stmt {A} (c : coroutine A) : respects (expr_stmt c).
Proof. intros self. apply R_refl. Qed.

Lemma respects_create_task {A} (c : coroutine A) :
  respects (await c) -> respects (create_task c).
Proof.
  intros Hc self. unfold create_task. specialize (Hc self).
  by destruct (await c self).
Qed.

Lemma respects_gather (pairs : list (cmd * result (Z * string))) :
  respects (gather pairs).
Proof.
  induction pairs as [|[run_cmd task] pairs IH]; simpl.
  - apply respects_ret.
  - apply respects_bind; [apply respects_await_task|]. intros r.
    apply respects_bind; [exact IH|]. intros out. apply respects_ret.
Qed.

Section Methods.

Variable P : Platform.
Variable W : World.
Variable LINTERS : list (string * config).
Variable PATTERNS : list (string * list string).
Variable TRUSTED_INSTALL : list cmd.
Variable INSTALL_DIRS : list string.

Hypothesis rmtree_respects : forall d, respects (log (EvRmtree d)).
Hypothesis parse_respects : forall l o, respects (log (EvParse l o)).
Hypothesis exec_respects :
  forall site command,
    site <> SiteInstall -> site <> SiteTrusted ->
    respects (await (run_command W site command)).
Hypothesis install_respects :
  forall c, respects (await (install_linter W c)).

Lemma respects_cleanup : respects (cleanup INSTALL_DIRS).
Proof.
  unfold cleanup. induction INSTALL_DIRS as [|d l IH]; simpl.
  - apply respects_ret.
  - apply respects_bind; [apply rmtree_respects | intros _; exact IH].
Qed.

Lemma respects_performance_hacks : respects (await (performance_hacks W)).
Proof.
  simpl. apply respects_try_except; [|intros _; apply respects_ret].
  apply respects_bind; [by apply exec_respects | intros _; apply respects_ret].
Qed.

Lemma respects_create_tasks (run_cmds : list cmd) :
  respects (create_tasks W run_cmds).
Proof.
  induction run_cmds as [|c l IH]; simpl; [apply respects_ret|].
  apply respects_bind.
  - apply respects_create_task. by apply exec_respects.
  - intros task. apply respects_bind; [exact IH|]. intros tasks.
    apply respects_ret.
Qed.

Lemma respects_run_per_file c ignore_paths path config_dir :
  respects (await (run_per_file P W PATTERNS c ignore_paths path config_dir)).
Proof.
  simpl. repeat (apply respects_bind; [apply respects_read | intros ?]).
  apply respects_bind; [apply respects_create_tasks | intros ?].
  apply respects_gather.
Qed.

Lemma respects_install_and_run install autorun ignore_paths config_dir c :
  respects (install_and_run P W PATTERNS install autorun ignore_paths
              config_dir c).
Proof.
  unfold install_and_run.
  apply respects_bind; [apply respects_deref | intros cfg].
  apply respects_bind.
  { apply respects_if; [apply install_respects | apply respects_ret]. }
  intros _. apply respects_if.
  - apply respects_bind; [apply respects_run_per_file | intros ?].
    apply respects_ret.
  - apply respects_bind; [apply respects_read | intros ?].
    apply respects_bind; [by apply exec_respects | intros ?].
    apply respects_ret.
Qed.

Lemma respects_parse_and_add linter c ignore_paths output messages :
  respects (parse_and_add P W linter c ignore_paths output messages).
Proof.
  unfold parse_and_add. apply respects_if; [|apply respects_ret].
  apply respects_bind; [apply respects_deref | intros cfg].
  apply respects_bind; [apply parse_respects | intros _].
  repeat (apply respects_bind; [apply respects_read | intros ?]).
  apply respects_ret.
Qed.

Lemma respects_run_linter install autorun ignore_paths config_dir linter
    messages :
  respects (run_linter P W LINTERS PATTERNS install autorun ignore_paths
              config_dir linter messages).
Proof.
  unfold run_linter. apply respects_bind.
  - apply respects_try_except; [apply respects_install_and_run|].
    intros _. apply respects_ret.
  - intros output. apply respects_try_except;
      [apply respects_parse_and_add | intros _; apply respects_ret].
Qed.

Hypothesis stop_respects : respects (system_should_stop W).

Lemma respects_run_loop install autorun ignore_paths config_dir linters
    messages :
  respects (run_loop P W LINTERS PATTERNS install autorun ignore_paths
              config_dir linters messages).
Proof.
  revert messages. induction linters as [|linter rest IH]; intros messages;
    simpl; [apply respects_ret|].
  apply respects_bind; [exact stop_respects | intros stop].
  destruct stop; [apply respects_ret|].
  apply respects_bind; [apply respects_run_linter | intros m; apply IH].
Qed.

Lemma respects_lint install autorun ignore_paths config_dir enabled
    disabled trusted :
  respects (lint P W LINTERS PATTERNS TRUSTED_INSTALL INSTALL_DIRS install
              autorun ignore_paths config_dir enabled disabled trusted).
Proof.
  unfold lint. simpl.
  apply respects_bind; [apply respects_cleanup | intros _].
  apply respects_bind; [apply respects_performance_hacks | intros _].
  apply respects_bind.
  { apply respects_if; [apply respects_expr_stmt | apply respects_ret]. }
  intros _. apply respects_bind; [apply respects_read | intros linters].
  apply respects_run_loop.
Qed.

End Methods.
End Respects.

(** *** What a method adds to the history *)

Section Emits.

Variable Q : event -> Prop.

Local Abbreviation emits := (emits Q).

Lemma emits_refl s : emits s s.
Proof. exists []. by rewrite app_nil_r. Qed.

Lemma emits_trans a b c : emits a b -> emits b c -> emits a c.
Proof.
  intros (n1 & H1 & Q1) (n2 & H2 & Q2). exists (n1 ++ n2).
  rewrite H2, H1, app_assoc. split; [reflexivity | by apply Forall_app].
Qed.

Variable W : World.

Lemma emits_log ev : Q ev -> respects emits (log ev).
Proof. intros Hev self. exists [ev]. simpl. by repeat constructor. Qed.

Lemma emits_run_command site command :
  Q (EvExec site command) -> respects emits (await (run_command W site command)).
Proof.
  intros Hev self. exists [EvExec site command]. simpl.
  destruct (exec W (history self) command); simpl; by repeat constructor.
Qed.

Lemma emits_should_stop : Q EvShouldStop -> respects emits (system_should_stop W).
Proof. intros Hev self. exists [EvShouldStop]. simpl. by repeat constructor. Qed.

Lemma emits_ledger_append install_cmd : respects emits (ledger_append install_cmd).
Proof. intros self. exists []. simpl. by rewrite app_nil_r. Qed.

Lemma emits_installed c :
  Q (EvExec SiteHelp (get_help c)) -> respects emits (await (installed W c)).
Proof.
  intros Hev. simpl.
  apply respects_try_except; try apply emits_refl; try apply emits_trans.
  - apply respects_bind; try apply emits_refl; try apply emits_trans.
    + by apply emits_run_command.
    + intros r. apply respects_ret, emits_refl.
  - intros _. apply respects_ret, emits_refl.
Qed.

Lemma emits_install_linter c :
  Q (EvExec SiteHelp (get_help c)) ->
  (forall install_cmd, Q (EvExec SiteInstall install_cmd)) ->
  respects emits (await (install_linter W c)).
Proof.
  intros Hhelp Hinst. simpl. generalize (get_install c) as install_cmds.
  induction install_cmds as [|install_cmd rest IH]; simpl.
  - apply respects_ret, emits_refl.
  - apply (respects_branch emits
             (fun self =>
                bool_decide (install_cmd ∈ previous_install_commands self)));
      [exact IH|].
    apply respects_bind; try apply emits_refl; try apply emits_trans.
    { apply emits_ledger_append. }
    intros _. apply respects_bind; try apply emits_refl; try apply emits_trans.
    { by apply emits_installed. }
    intros is_installed. apply respects_if; [|apply respects_ret, emits_refl].
    apply respects_bind; try apply emits_refl; try apply emits_trans; [|by intros _].
    apply respects_try_except; try apply emits_refl; try apply emits_trans.
    + apply respects_bind; try apply emits_refl; try apply emits_trans.
      * by apply emits_run_command.
      * intros r. apply respects_ret, emits_refl.
    + intros _. apply respects_ret, emits_refl.
Qed.

End Emits.

(** ** The install ledger *)





Section Ledger.

Variable W : World.






End Ledger.







(** ** The opening of a run *)

Section Opening.

Variable P : Platform.
Variable W : World.
Variable LINTERS : list (string * config).
Variable PATTERNS : list (string * list string).
Variable TRUSTED_INSTALL : list cmd.
Variable INSTALL_DIRS : list string.

Lemma cleanup_loop_run (dirs : list string) (self : runner) :
  cleanup_loop dirs self = (Ok tt, with_events self (map EvRmtree dirs)).
Proof.
  revert self. induction dirs as [|d dirs IH]; intros self; simpl.
  - by rewrite with_events_nil.
  - rewrite M_bind_eq. simpl. fold (with_events self [EvRmtree d]).
    rewrite IH, with_events_app. reflexivity.
Qed.

Lemma performance_hacks_run (self : runner) :
  await (performance_hacks W) self
  = (Ok tt, with_events self [EvExec SitePerf ["npm"; "set"; "progress=false"]]).
Proof.
  simpl. unfold try_except. rewrite M_bind_eq. simpl.
  destruct (exec W (history self) _); reflexivity.
Qed.

(** The run up to the loop: the opening events, no trusted install, then
    the selection on the world as it is at that point. *)
Lemma lint_unfold install autorun ignore_paths config_dir enabled disabled
    trusted (self : runner) :
  lint P W LINTERS PATTERNS TRUSTED_INSTALL INSTALL_DIRS install autorun
    ignore_paths config_dir enabled disabled trusted self
  = let s := with_events self (opening_events INSTALL_DIRS) in
    match linters_to_run P W LINTERS PATTERNS (history s) autorun ignore_paths
            enabled disabled with
    | Ok linters =>
        run_loop P W LINTERS PATTERNS install autorun ignore_paths config_dir
          (iter_set W linters) Messages.new s
    | Raise e => (Raise e, s)
    end.
Proof.
  unfold lint, run_linters. unfold await at 1.
  rewrite M_bind_eq. unfold cleanup. rewrite cleanup_loop_run. cbv beta iota.
  rewrite M_bind_eq, performance_hacks_run, with_events_app. cbv beta iota.
  fold (opening_events INSTALL_DIRS).
  rewrite M_bind_eq.
  replace ((if trusted && (install || autorun)
            then expr_stmt (install_trusted W TRUSTED_INSTALL) else ret tt)
             (with_events self (opening_events INSTALL_DIRS)))
    with (Ok tt, with_events self (opening_events INSTALL_DIRS))
    by (by destruct (trusted && (install || autorun))).
  cbv beta iota. rewrite M_bind_eq. unfold read. cbv zeta.
  destruct (linters_to_run _ _ _ _ _ _ _ _ _); reflexivity.
Qed.

Lemma iter_set_empty : iter_set W ∅ = [].
Proof.
  pose proof (iter_set_perm W ∅) as Hperm. rewrite elements_empty in Hperm.
  by apply Permutation_nil_r in Hperm.
Qed.

Lemma executed_commands_app (a b : list event) :
  executed_commands (a ++ b) = executed_commands a ++ executed_commands b.
Proof.
  induction a as [|ev a IH]; simpl; [reflexivity|].
  destruct ev; simpl; rewrite ?IH; reflexivity.
Qed.

End Opening.

(** C4 (the code departs from the claim): [run_linters] calls
    [self.install_trusted()] without [await], so the coroutine is created
    and dropped and none of its commands reaches [run_command].  In no run,
    whatever its arguments, is there a command run from [install_trusted];
    a trusted run with installation on and no tool selected executes the
    one command of [performance_hacks]; awaited, the same coroutine runs
    the whole [TRUSTED_INSTALL] list. *)
Theorem trusted_install_is_not_run :
  (forall (P : Platform) (W : World) (LINTERS : list (string * config))
          (PATTERNS : list (string * list string))
          (TRUSTED_INSTALL : list cmd) (INSTALL_DIRS : list string)
          (install autorun : bool) (ignore_paths : option (list string))
          (config_dir : option string)
          (enabled_linters disabled_linters : option (list string))
          (self : runner),
      emits not_trusted self
        (lint P W LINTERS PATTERNS TRUSTED_INSTALL INSTALL_DIRS install
           autorun ignore_paths config_dir enabled_linters disabled_linters
           true self).2)
  /\ (forall (P : Platform) (W : World),
        executed_commands
          (history
             (lint P W (Registry.LINTERS P) Registry.PATTERNS
                (Registry.TRUSTED_INSTALL P) Registry.INSTALL_DIRS
                true false (Some []) None None None true new_runner).2)
        = [["npm"; "set"; "progress=false"]])
  /\ executed_commands
       (history
          (await (install_trusted
                    (Example.world (Dir [] []) Example.quiet
                       Example.never_stop Example.no_findings)
                    Example.TRUSTED_INSTALL) new_runner).2)
     = Example.TRUSTED_INSTALL.
Proof.
  split; [|split].
  - intros. apply (respects_lint (emits not_trusted));
      try apply emits_refl; try apply emits_trans.
    + intros d. apply emits_log. intros c. discriminate.
    + intros l o. apply emits_log. intros c. discriminate.
    + intros site command _ Hsite. apply emits_run_command.
      intros c Heq. inversion Heq. by subst.
    + intros c. apply emits_install_linter; [|intros ic]; intros c';
        discriminate.
    + apply emits_should_stop. intros c. discriminate.
  - intros P W. rewrite lint_unfold. cbv zeta.
    replace (linters_to_run P W (Registry.LINTERS P) Registry.PATTERNS
               (history (with_events new_runner
                           (opening_events Registry.INSTALL_DIRS)))
               false (Some []) None None)
      with (Ok (∅ : gset string)) by (vm_compute; reflexivity).
    rewrite iter_set_empty. reflexivity.
  - vm_compute. reflexivity.
Qed.

(** ** An absent ignore list *)

Section AbsentIgnoreList.

Variable P : Platform.
Variable W : World.
Variable LINTERS : list (string * config).
Variable PATTERNS : list (string * list string).

Lemma or_str_getcwd : or_str (Some (getcwd P)) (getcwd P) = getcwd P.
Proof. unfold or_str. by destruct (Str.truthy _). Qed.

Lemma any_dotfile_listable h path dotfiles :
  is_Some (fs W h path) -> exists b, any_dotfile W h path dotfiles = Ok b.
Proof.
  intros [d Hd]. induction dotfiles as [|dotfile rest IH]; simpl; [eauto|].
  unfold listdir. rewrite Hd, bind_Ok. case_bool_decide; eauto.
Qed.

Lemma dotfile_step_listable h disabled item s :
  is_Some (fs W h (getcwd P)) ->
  exists s', dotfile_step P W h disabled item s = Ok s'.
Proof.
  intros Hcwd. destruct item as [linter c], s as [found linters].
  unfold dotfile_step, dotfiles_exist. simpl or_str.
  destruct (any_dotfile_listable h (getcwd P) (get_dotfiles c) Hcwd) as [b ->].
  rewrite bind_Ok.
  destruct b; simpl;
    repeat match goal with
           | |- context [if ?b then _ else _] => destruct b
           end; eauto.
Qed.

Lemma dotfile_loop_listable h disabled items s :
  is_Some (fs W h (getcwd P)) ->
  exists s', for_each items (dotfile_step P W h disabled) s = Ok s'.
Proof.
  intros Hcwd. revert s. induction items as [|item items IH]; intros s;
    simpl; [eauto|].
  destruct (dotfile_step_listable h disabled item s Hcwd) as [s' ->].
  rewrite bind_Ok. apply IH.
Qed.

Lemma linters_to_run_absent_ignore_list h enabled disabled :
  is_Some (fs W h (getcwd P)) ->
  linters_to_run P W LINTERS PATTERNS h true None enabled disabled
  = Raise TypeError.
Proof.
  intros Hcwd. unfold linters_to_run.
  rewrite !extend_split_merged, !bind_Ok. simpl negb. cbv iota.
  destruct (dotfile_loop_listable h (merged disabled) LINTERS (∅, ∅) Hcwd)
    as [[found linters] ->].
  rewrite bind_Ok. unfold all_filenames_in_dir.
  destruct Hcwd as [d Hd].
  rewrite (walk_filenames_None P W h (Some (getcwd P)) d);
    [reflexivity | by rewrite or_str_getcwd].
Qed.

End AbsentIgnoreList.

(** C10: where the current directory can be listed, autorun selection with
    the ignore list absent raises [TypeError]: the first turn of the walk
    iterates over [None], inside a [try] that handles [ValueError] only.
    No handler of [run_linters] encloses the selection, so the run ends
    with that exception; an empty list, in contrast, is scanned without
    one. *)
Theorem absent_ignore_list_aborts_autorun :
  forall (P : Platform) (W : World) (LINTERS : list (string * config))
         (PATTERNS : list (string * list string))
         (TRUSTED_INSTALL : list cmd) (INSTALL_DIRS : list string),
    (forall h, is_Some (fs W h (getcwd P))) ->
    (forall h enabled_linters disabled_linters,
        linters_to_run P W LINTERS PATTERNS h true None enabled_linters
          disabled_linters = Raise TypeError)
    /\ (forall install config_dir enabled_linters disabled_linters trusted self,
          (lint P W LINTERS PATTERNS TRUSTED_INSTALL INSTALL_DIRS install true
             None config_dir enabled_linters disabled_linters trusted self).1
          = Raise TypeError)
    /\ (forall h path,
          exists paths, all_filenames_in_dir P W h path (Some []) = Ok paths).
Proof.
  intros P W LINTERS PATTERNS TRUSTED_INSTALL INSTALL_DIRS Hcwd.
  split; [|split].
  - intros. by apply linters_to_run_absent_ignore_list.
  - intros. rewrite lint_unfold. cbv zeta.
    by rewrite linters_to_run_absent_ignore_list.
  - intros. apply all_filenames_in_dir_empty_rules.
Qed.

(** A project with one file: the hypothesis holds, and the run aborts. *)
Lemma absent_ignore_list_aborts_autorun_witness :
  (forall h, is_Some (fs (Example.world (Dir [] ["app.py"]) Example.quiet
                            Example.never_stop Example.no_findings) h
                        (getcwd Posix.platform)))
  /\ (lint Posix.platform
        (Example.world (Dir [] ["app.py"]) Example.quiet Example.never_stop
           Example.no_findings)
        Example.LINTERS Example.PATTERNS Example.TRUSTED_INSTALL
        Example.INSTALL_DIRS false true None None None None false
        new_runner).1 = Raise TypeError.
Proof.
  assert (Hcwd : forall h,
             is_Some (fs (Example.world (Dir [] ["app.py"]) Example.quiet
                            Example.never_stop Example.no_findings) h
                        (getcwd Posix.platform))).
  { intros h. simpl. eexists. reflexivity. }
  split; [exact Hcwd|].
  apply (absent_ignore_list_aborts_autorun Posix.platform _ Example.LINTERS
           Example.PATTERNS Example.TRUSTED_INSTALL Example.INSTALL_DIRS Hcwd).
Defined.

(** ** The run loop *)

Section RunLoop.

Variable P : Platform.
Variable W : World.
Variable LINTERS : list (string * config).
Variable PATTERNS : list (string * list string).
Variable install autorun : bool.
Variable ignore_paths : option (list string).
Variable config_dir : option string.

Local Abbreviation run_linter' :=
  (run_linter P W LINTERS PATTERNS install autorun ignore_paths config_dir).
Local Abbreviation run_loop' :=
  (run_loop P W LINTERS PATTERNS install autorun ignore_paths config_dir).
Local Abbreviation install_and_run' :=
  (install_and_run P W PATTERNS install autorun ignore_paths config_dir).
Local Abbreviation reaches' :=
  (reaches P W LINTERS PATTERNS install autorun ignore_paths config_dir).

(** The loop body in terms of its two [try] blocks. *)
Lemma run_linter_unfold linter messages self :
  run_linter' linter messages self =
  let c := dict_get linter LINTERS in
  match install_and_run' c self with
  | (Ok output, s1) =>
      match parse_and_add P W linter c ignore_paths output messages s1 with
      | (Ok messages', s2) => (Ok messages', s2)
      | (Raise _, s2) => (Ok messages, s2)
      end
  | (Raise _, s1) => (Ok messages, s1)
  end.
Proof.
  unfold run_linter. rewrite M_bind_eq. unfold try_except. cbv zeta.
  destruct (install_and_run' _ self) as [[output|e] s1]; simpl.
  - destruct (parse_and_add _ _ _ _ _ _ _ s1) as [[m|e] s2]; reflexivity.
  - reflexivity.
Qed.

(** Both handlers are [except Exception]: the loop body always returns. *)
Lemma run_linter_returns linter messages self :
  exists messages' self',
    run_linter' linter messages self = (Ok messages', self')
    /\ messages ⊆ messages'.
Proof.
  rewrite run_linter_unfold. cbv zeta.
  destruct (install_and_run' _ self) as [[output|e] s1]; [|by eauto].
  unfold parse_and_add.
  destruct (output_truthy output); [|by eauto].
  rewrite M_bind_eq.
  destruct (dict_get linter LINTERS) as [c|]; simpl; [|by eauto].
  rewrite !M_bind_eq. simpl.
  destruct (parse W (get_parser c) output) as [msgs|e]; simpl; [|by eauto].
  rewrite M_bind_eq. simpl.
  destruct (prefix_and_filter P linter ignore_paths msgs) as [D|e]; simpl;
    [|by eauto].
  do 2 eexists. split; [reflexivity|]. unfold Messages.add_messages.
  set_solver.
Qed.

Lemma run_linter_no_stop_check linter messages self :
  emits not_stop_check self (run_linter' linter messages self).2.
Proof.
  apply (respects_run_linter (emits not_stop_check));
    try apply emits_refl; try apply emits_trans.
  - intros l o. by apply emits_log.
  - intros site command _ _. by apply emits_run_command.
  - intros c. by apply emits_install_linter.
Qed.

Lemma run_loop_stop linter rest messages self :
  should_stop W (history self) = true ->
  run_loop' (linter :: rest) messages self
  = (Ok (Messages.get_messages messages), with_events self [EvShouldStop]).
Proof. intros Hstop. simpl. rewrite M_bind_eq. simpl. by rewrite Hstop. Qed.

Lemma run_loop_go linter rest messages self messages' self' :
  should_stop W (history self) = false ->
  run_linter' linter messages (with_events self [EvShouldStop])
  = (Ok messages', self') ->
  run_loop' (linter :: rest) messages self = run_loop' rest messages' self'.
Proof.
  intros Hstop Hrun. simpl. rewrite M_bind_eq. simpl. rewrite Hstop.
  rewrite M_bind_eq. fold (with_events self [EvShouldStop]).
  by rewrite Hrun.
Qed.

(** The loop never raises, and never loses a diagnostic. *)
Lemma run_loop_returns linters messages self :
  exists out self',
    run_loop' linters messages self = (Ok out, self') /\ messages ⊆ out.
Proof.
  revert messages self.
  induction linters as [|linter rest IH]; intros messages self.
  - simpl. by eauto.
  - destruct (should_stop W (history self)) eqn:Hstop.
    + rewrite run_loop_stop by done. by eauto.
    + destruct (run_linter_returns linter messages
                  (with_events self [EvShouldStop])) as (m1 & s1 & Hrun & Hsub).
      rewrite (run_loop_go _ _ _ _ _ _ Hstop Hrun).
      destruct (IH m1 s1) as (out & s' & Hloop & Hout).
      exists out, s'. split; [exact Hloop | set_solver].
Qed.

Lemma reaches_run_loop linters messages self linters' messages' self' :
  reaches' linters messages self linters' messages' self' ->
  run_loop' linters messages self = run_loop' linters' messages' self'.
Proof.
  induction 1 as [|linter linters messages self m1 s1 ls' m' s' Hstop Hrun _ IH];
    [reflexivity|].
  by rewrite (run_loop_go _ _ _ _ _ _ Hstop Hrun).
Qed.

Lemma reaches_trans linters messages self l1 m1 s1 l2 m2 s2 :
  reaches' linters messages self l1 m1 s1 ->
  reaches' l1 m1 s1 l2 m2 s2 ->
  reaches' linters messages self l2 m2 s2.
Proof.
  induction 1; [done|]. intros Hrest. eapply reaches_next; eauto.
Qed.

End RunLoop.

(** C9: the stop signal is read once at the top of each turn of the loop
    and nowhere in the loop body.  If it is set when the loop comes to a
    tool, the run returns at once, as a normal result, the messages
    accumulated by the tools already done, and the check is the last thing
    it does: no later tool is installed, run or parsed.  If it is not set,
    the turn runs the tool, without a further check, and goes on with the
    rest. *)
Theorem stop_signal_at_tool_boundary :
  forall (P : Platform) (W : World) (LINTERS : list (string * config))
         (PATTERNS : list (string * list string)) (install autorun : bool)
         (ignore_paths : option (list string)) (config_dir : option string)
         (linters : list string) (messages0 : Messages.t) (self0 : runner)
         (linter : string) (rest : list string) (messages : Messages.t)
         (self : runner),
    reaches P W LINTERS PATTERNS install autorun ignore_paths config_dir
      linters messages0 self0 (linter :: rest) messages self ->
    (should_stop W (history self) = true ->
       run_loop P W LINTERS PATTERNS install autorun ignore_paths config_dir
         linters messages0 self0
       = (Ok (Messages.get_messages messages),
          with_events self [EvShouldStop]))
    /\ (should_stop W (history self) = false ->
          exists messages' self',
            run_linter P W LINTERS PATTERNS install autorun ignore_paths
              config_dir linter messages (with_events self [EvShouldStop])
            = (Ok messages', self')
            /\ emits not_stop_check (with_events self [EvShouldStop]) self'
            /\ reaches P W LINTERS PATTERNS install autorun ignore_paths
                 config_dir linters messages0 self0 rest messages' self').
Proof.
  intros P W LINTERS PATTERNS install autorun ignore_paths config_dir
         linters messages0 self0 linter rest messages self Hreach.
  split; intros Hstop.
  - rewrite (reaches_run_loop _ _ _ _ _ _ _ _ _ _ _ _ _ _ Hreach).
    by apply run_loop_stop.
  - destruct (run_linter_returns P W LINTERS PATTERNS install autorun
                ignore_paths config_dir linter messages
                (with_events self [EvShouldStop]))
      as (m1 & s1 & Hrun & _).
    exists m1, s1. split; [exact Hrun|]. split.
    + pose proof (run_linter_no_stop_check P W LINTERS PATTERNS install
                    autorun ignore_paths config_dir linter messages
                    (with_events self [EvShouldStop])) as Hemit.
      by rewrite Hrun in Hemit.
    + eapply reaches_trans; [exact Hreach|].
      eapply reaches_next; [exact Hstop | exact Hrun | apply reaches_here].
Qed.

(** C2: the loop over the selected tools always returns a set, whatever
    the tools do.  At every tool the loop comes to without a stop: if the
    installation or the execution of the tool raises, the loop body
    returns the messages unchanged and the loop goes on to the next tool;
    if the tool ran and its output was parsed and merged, the merged
    messages are in the set the run returns; and so is everything
    accumulated before the tool. *)
Theorem one_failing_tool_does_not_abort_the_run :
  forall (P : Platform) (W : World) (LINTERS : list (string * config))
         (PATTERNS : list (string * list string)) (install autorun : bool)
         (ignore_paths : option (list string)) (config_dir : option string)
         (linters : list string) (messages0 : Messages.t) (self0 : runner),
  exists (out : gset diagnostic) (self_end : runner),
    run_loop P W LINTERS PATTERNS install autorun ignore_paths config_dir
      linters messages0 self0 = (Ok out, self_end)
    /\ forall (linter : string) (rest : list string) (messages : Messages.t)
              (self : runner),
         reaches P W LINTERS PATTERNS install autorun ignore_paths config_dir
           linters messages0 self0 (linter :: rest) messages self ->
         should_stop W (history self) = false ->
         let c := dict_get linter LINTERS in
         let self1 := with_events self [EvShouldStop] in
         messages ⊆ out
         /\ (forall e self2,
               install_and_run P W PATTERNS install autorun ignore_paths
                 config_dir c self1 = (Raise e, self2) ->
               run_linter P W LINTERS PATTERNS install autorun ignore_paths
                 config_dir linter messages self1 = (Ok messages, self2)
               /\ reaches P W LINTERS PATTERNS install autorun ignore_paths
                    config_dir linters messages0 self0 rest messages self2)
         /\ (forall output self2 messages' self3,
               install_and_run P W PATTERNS install autorun ignore_paths
                 config_dir c self1 = (Ok output, self2) ->
               parse_and_add P W linter c ignore_paths output messages self2
               = (Ok messages', self3) ->
               messages' ⊆ out).
Proof.
  intros.
  destruct (run_loop_returns P W LINTERS PATTERNS install autorun
              ignore_paths config_dir linters messages0 self0)
    as (out & self_end & Hloop & _).
  exists out, self_end. split; [exact Hloop|].
  intros linter rest messages self Hreach Hstop c self1.
  pose proof (reaches_run_loop _ _ _ _ _ _ _ _ _ _ _ _ _ _ Hreach) as Heq.
  rewrite Hloop in Heq. symmetry in Heq.
  (* what the loop returns from a later boundary *)
  assert (Hlater : forall m s,
             reaches P W LINTERS PATTERNS install autorun ignore_paths
               config_dir (linter :: rest) messages self rest m s ->
             m ⊆ out).
  { intros m s Hstep.
    pose proof (reaches_run_loop _ _ _ _ _ _ _ _ _ _ _ _ _ _ Hstep) as Heq'.
    rewrite Heq in Heq'.
    destruct (run_loop_returns P W LINTERS PATTERNS install autorun
                ignore_paths config_dir rest m s) as (o & s' & Ho & Hsub).
    rewrite Ho in Heq'. by inversion Heq'; subst. }
  split; [|split].
  - destruct (run_loop_returns P W LINTERS PATTERNS install autorun
                ignore_paths config_dir (linter :: rest) messages self)
      as (o & s' & Ho & Hsub).
    rewrite Ho in Heq. by inversion Heq; subst.
  - intros e self2 Hraise.
    assert (Hrun : run_linter P W LINTERS PATTERNS install autorun
                     ignore_paths config_dir linter messages self1
                   = (Ok messages, self2)).
    { rewrite run_linter_unfold. cbv zeta. fold c. by rewrite Hraise. }
    split; [exact Hrun|].
    eapply reaches_trans; [exact Hreach|].
    eapply reaches_next; [exact Hstop | exact Hrun | apply reaches_here].
  - intros output self2 messages' self3 Hexec Hparse.
    apply (Hlater messages' self3).
    eapply reaches_next; [exact Hstop | | apply reaches_here].
    rewrite run_linter_unfold. cbv zeta. fold c. fold self1.
    by rewrite Hexec, Hparse.
Qed.

(** ** The aggregator *)

Section Aggregator.

Variable P : Platform.
Variable W : World.

Lemma ignore_path_matches_true path rule :
  ignore_path_matches P path rule = Ok true <->
  exists rel,
    relpath P path = Ok rel
    /\ (Str.startswith rel rule = true \/ Str.startswith path rule = true
        \/ fnmatch P path rule = true \/ rule ∈ Str.split (sep P) path).
Proof.
  unfold ignore_path_matches. destruct (relpath P path) as [rel|e]; simpl.
  - split.
    + intros H. injection H as Hb. exists rel. split; [reflexivity|].
      rewrite !orb_true_iff, bool_decide_eq_true in Hb. tauto.
    + intros (rel' & Hrel & Hm). inversion Hrel; subst rel'. f_equal.
      rewrite !orb_true_iff, bool_decide_eq_true. tauto.
  - split; [discriminate | intros (rel & Hrel & _); discriminate].
Qed.

Lemma ignore_path_matches_relpath path rule rule' b :
  ignore_path_matches P path rule = Ok b ->
  exists b', ignore_path_matches P path rule' = Ok b'.
Proof.
  unfold ignore_path_matches. destruct (relpath P path); simpl;
    [eauto | discriminate].
Qed.

(** The four tests of [should_ignore_path]. *)
Lemma should_ignore_path_true path rules :
  should_ignore_path P path (Some rules) = Ok true <->
  exists rule rel,
    rule ∈ rules
    /\ relpath P path = Ok rel
    /\ (Str.startswith rel rule = true \/ Str.startswith path rule = true
        \/ fnmatch P path rule = true \/ rule ∈ Str.split (sep P) path).
Proof.
  unfold should_ignore_path. simpl.
  induction rules as [|r rules IH]; simpl.
  - split; [discriminate | intros (rule & rel & Hin & _)].
    by apply elem_of_nil in Hin.
  - destruct (ignore_path_matches P path r) as [[|]|e] eqn:Hr; simpl.
    + split; [intros _ | reflexivity].
      apply ignore_path_matches_true in Hr as (rel & Hrel & Hm).
      exists r, rel. split; [set_solver | tauto].
    + rewrite IH. split.
      * intros (rule & rel & Hin & Hrest). exists rule, rel.
        split; [set_solver | exact Hrest].
      * intros (rule & rel & Hin & Hrel & Hm).
        apply elem_of_cons in Hin as [->|Hin]; [|by eauto].
        assert (Htrue : ignore_path_matches P path r = Ok true)
          by (apply ignore_path_matches_true; eauto).
        congruence.
    + split; [discriminate|]. intros (rule & rel & _ & Hrel & _).
      unfold ignore_path_matches in Hr. rewrite Hrel in Hr. discriminate.
Qed.

(** The comprehension: the kept diagnostics, each with the tool name put
    before its text. *)
Lemma prefix_and_filter_elem linter ignore_paths msgs D :
  prefix_and_filter P linter ignore_paths msgs = Ok D ->
  forall d : diagnostic,
    d ∈ D <->
    exists path line text,
      (path, line, text) ∈ msgs
      /\ should_ignore_path P path ignore_paths = Ok false
      /\ d = (path, line, linter +:+ ": " +:+ text).
Proof.
  revert D. induction msgs as [|[[path line] text] msgs IH]; simpl; intros D H d.
  - inversion H; subst. split; [set_solver|].
    intros (p & l & t & Hin & _). by apply elem_of_nil in Hin.
  - apply bind_inv_Ok in H as (ignored & Hign & H).
    apply bind_inv_Ok in H as (others & Hothers & H).
    specialize (IH others Hothers d). inversion H; subst D. clear H.
    destruct ignored.
    + rewrite IH. split.
      * intros (p & l & t & Hin & Hrest). exists p, l, t.
        split; [set_solver | exact Hrest].
      * intros (p & l & t & Hin & Hno & Hd).
        apply elem_of_cons in Hin as [Heq|Hin]; [|by eauto 7].
        inversion Heq; subst. congruence.
    + rewrite elem_of_union, elem_of_singleton, IH. split.
      * intros [->|(p & l & t & Hin & Hrest)].
        -- exists path, line, text. split; [set_solver | by split].
        -- exists p, l, t. split; [set_solver | exact Hrest].
      * intros (p & l & t & Hin & Hno & Hd).
        apply elem_of_cons in Hin as [Heq|Hin]; [|by eauto 8].
        inversion Heq; subst. by left.
Qed.

Lemma parse_and_add_merges linter c ignore_paths output messages self msgs D :
  output_truthy output = true ->
  parse W (get_parser c) output = Ok msgs ->
  prefix_and_filter P linter ignore_paths msgs = Ok D ->
  parse_and_add P W linter (Some c) ignore_paths output messages self
  = (Ok (Messages.add_messages messages D),
     with_events self [EvParse linter output]).
Proof.
  intros Hout Hparse Hfilter. unfold parse_and_add. rewrite Hout.
  rewrite !M_bind_eq. simpl. rewrite !M_bind_eq. simpl. rewrite Hparse.
  simpl. rewrite M_bind_eq. simpl. by rewrite Hfilter.
Qed.

End Aggregator.

(** C8: when the parsed diagnostics of a tool are merged, the result is the
    union of the running set and the set [D] of the comprehension; [D] holds
    exactly the parsed diagnostics whose path is not ignored, each with
    ["<tool>: "] before its text; a path is ignored exactly when one rule is
    a prefix of its relative form, a prefix of the path itself, a glob
    that matches it, or one of its segments.  The set is a set of triples:
    merging the same diagnostics again changes nothing, and one triple fed
    twice is one entry. *)
Theorem merge_prefixes_filters_and_unites :
  forall (P : Platform) (W : World) (linter : string) (c : config)
         (ignore_paths : option (list string)) (output : raw_output)
         (messages : Messages.t) (self : runner)
         (msgs : list diagnostic) (D : gset diagnostic),
    output_truthy output = true ->
    parse W (get_parser c) output = Ok msgs ->
    prefix_and_filter P linter ignore_paths msgs = Ok D ->
    parse_and_add P W linter (Some c) ignore_paths output messages self
    = (Ok (Messages.add_messages messages D),
       with_events self [EvParse linter output])
    /\ (forall d : diagnostic,
          d ∈ D <->
          exists path line text,
            (path, line, text) ∈ msgs
            /\ should_ignore_path P path ignore_paths = Ok false
            /\ d = (path, line, linter +:+ ": " +:+ text))
    /\ (forall path rules,
          should_ignore_path P path (Some rules) = Ok true <->
          exists rule rel,
            rule ∈ rules
            /\ relpath P path = Ok rel
            /\ (Str.startswith rel rule = true
                \/ Str.startswith path rule = true
                \/ fnmatch P path rule = true
                \/ rule ∈ Str.split (sep P) path))
    /\ (forall d : diagnostic,
          d ∈ Messages.get_messages (Messages.add_messages messages D) <->
          d ∈ messages \/ d ∈ D)
    /\ Messages.add_messages (Messages.add_messages messages D) D
       = Messages.add_messages messages D
    /\ (forall d : diagnostic,
          size (Messages.get_messages
                  (Messages.add_messages
                     (Messages.add_messages Messages.new {[d]}) {[d]})) = 1).
Proof.
  intros P W linter c ignore_paths output messages self msgs D
         Hout Hparse Hfilter.
  split; [by eapply parse_and_add_merges|].
  split; [by eapply prefix_and_filter_elem|].
  split; [intros; apply should_ignore_path_true|].
  unfold Messages.add_messages, Messages.get_messages, Messages.new.
  split; [intros d; set_solver|]. split; [set_solver|].
  intros d. replace (∅ ∪ {[d]} ∪ {[d]} : gset diagnostic) with ({[d]} : gset diagnostic)
    by set_solver.
  apply size_singleton.
Qed.

(** ** The statements at work *)

(** C2 at work: [bandit] cannot be spawned, [yamllint] runs; the run
    returns, and the finding of [yamllint] is in the set it returns. *)
Lemma one_failing_tool_does_not_abort_the_run_witness :
  exists (out : gset diagnostic) (self_end : runner),
    Scenario.run Scenario.one_fails = (Ok out, self_end)
    /\ ("a.yaml", 1%Z, "yamllint: too long") ∈ out.
Proof.
  destruct (one_failing_tool_does_not_abort_the_run Posix.platform
              Scenario.one_fails Example.LINTERS Example.PATTERNS false false
              Scenario.ignore_paths None ["bandit"; "yamllint"] Messages.new
              new_runner) as (out & self_end & Hloop & Hall).
  exists out, self_end. split; [exact Hloop|].
  pose proof (Hall "bandit" ["yamllint"] Messages.new new_runner
                (reaches_here _ _ _ _ _ _ _ _ _ _ _) eq_refl) as Hbandit.
  cbv zeta in Hbandit. destruct Hbandit as (_ & Hraise & _).
  edestruct Hraise as [_ Hreach]; [vm_compute; reflexivity|].
  pose proof (Hall "yamllint" [] _ _ Hreach eq_refl) as Hyaml.
  cbv zeta in Hyaml. destruct Hyaml as (_ & _ & Hok).
  assert (Hsub : ({[ ("a.yaml", 1%Z, "yamllint: too long") ]}
                    : gset diagnostic) ⊆ out).
  { eapply Hok; [vm_compute; reflexivity | vm_compute; reflexivity]. }
  apply Hsub. by apply elem_of_singleton.
Defined.

(** C8 at work: three parsed diagnostics, two of them equal and one under
    the ignored [vendor], are merged as one entry. *)
Lemma merge_prefixes_filters_and_unites_witness :
  let c := Registry.entry [] ["yamllint"; "-h"] ["yamllint"] ["yamllint"]
             [] "YAMLLintParser" "yaml" true false in
  let D : gset diagnostic := {[ ("a.yaml", 1%Z, "yamllint: too long") ]} in
  output_truthy (OutStr "report") = true
  /\ parse Scenario.one_fails (get_parser c) (OutStr "report")
     = Ok Scenario.findings
  /\ prefix_and_filter Posix.platform "yamllint" Scenario.ignore_paths
       Scenario.findings = Ok D
  /\ parse_and_add Posix.platform Scenario.one_fails "yamllint" (Some c)
       Scenario.ignore_paths (OutStr "report") Messages.new new_runner
     = (Ok (Messages.add_messages Messages.new D),
        with_events new_runner [EvParse "yamllint" (OutStr "report")]).
Proof.
  intros c D.
  assert (Hout : output_truthy (OutStr "report") = true) by reflexivity.
  assert (Hparse : parse Scenario.one_fails (get_parser c) (OutStr "report")
                   = Ok Scenario.findings) by reflexivity.
  assert (Hfilter : prefix_and_filter Posix.platform "yamllint"
                      Scenario.ignore_paths Scenario.findings = Ok D)
    by (vm_compute; reflexivity).
  split; [exact Hout|]. split; [exact Hparse|]. split; [exact Hfilter|].
  exact (proj1 (merge_prefixes_filters_and_unites Posix.platform
                  Scenario.one_fails "yamllint" c Scenario.ignore_paths
                  (OutStr "report") Messages.new new_runner Scenario.findings
                  D Hout Hparse Hfilter)).
Defined.

(** C9 at work: the stop signal is set once [bandit] has been parsed; the
    run returns the finding of [bandit], and [yamllint] is never run. *)
Lemma stop_signal_at_tool_boundary_witness :
  let self1 : runner :=
    {| previous_install_commands := [];
       history := [EvShouldStop; EvExec SiteRun Scenario.bandit_command;
                   EvParse "bandit" (OutStr "report")] |} in
  should_stop Scenario.stopped (history self1) = true
  /\ Scenario.run Scenario.stopped
     = (Ok {[ ("a.yaml", 1%Z, "bandit: too long") ]},
        with_events self1 [EvShouldStop]).
Proof.
  intros self1. split; [reflexivity|].
  refine (proj1 (stop_signal_at_tool_boundary Posix.platform
                   Scenario.stopped Example.LINTERS Example.PATTERNS false
                   false Scenario.ignore_paths None ["bandit"; "yamllint"]
                   Messages.new new_runner "yamllint" []
                   {[ ("a.yaml", 1%Z, "bandit: too long") ]} self1 _)
                eq_refl).
  eapply reaches_next; [reflexivity | | apply reaches_here].
  vm_compute. reflexivity.
Defined.


(** C6 at work: one comma-separated entry names two tools of the table and
    one name that is no tool; [bandit] is also disabled. *)
Lemma without_autorun_selects_enabled_witness :
  Example.select Scenario.project false None (Some ["bandit,eslint,nothing"])
    (Some ["bandit"])
  = Ok {["bandit"; "eslint"]}
  /\ exists s : gset string,
       Example.select Scenario.project false None
         (Some ["bandit,eslint,nothing"]) (Some ["bandit"]) = Ok s
       /\ forall linter : string,
            linter ∈ s <->
            linter ∈ Example.LINTERS.*1
            /\ linter ∈ merged (Some ["bandit,eslint,nothing"]).
Proof.
  split; [vm_compute; reflexivity|].
  apply (without_autorun_selects_enabled Posix.platform).
Defined.

(** * Further properties of the module *)

(** ** Selection *)

Lemma for_each_invariant_elem {A S} (I : S -> Prop) (l : list A)
    (body : A -> S -> result S) :
  (forall x s s', x ∈ l -> I s -> body x s = Ok s' -> I s') ->
  forall s s', I s -> for_each l body s = Ok s' -> I s'.
Proof.
  induction l as [|x l IH]; simpl; intros Hbody s s' Hs Hrun.
  - congruence.
  - apply bind_inv_Ok in Hrun as (s1 & H1 & H2).
    apply (IH (fun y t t' Hy => Hbody y t t' (list_elem_of_further _ _ _ Hy))
              s1 s'); [|exact H2].
    apply (Hbody x s s1); [set_solver | exact Hs | exact H1].
Qed.

Section Selection.

Variable P : Platform.
Variable W : World.
Variable LINTERS : list (string * config).
Variable PATTERNS : list (string * list string).

Lemma iter_set_elem (s : gset string) (x : string) :
  x ∈ iter_set W s <-> x ∈ s.
Proof. by rewrite (iter_set_perm W s), elem_of_elements. Qed.

Lemma any_pattern_matches_true (files : gset string) (patterns : list string) :
  any_pattern_matches P W files patterns = true <->
  exists pattern f,
    pattern ∈ patterns /\ f ∈ files /\ fnmatch P f pattern = true.
Proof.
  induction patterns as [|pattern rest IH]; simpl.
  - split; [discriminate | intros (p & f & Hp & _)].
    by apply elem_of_nil in Hp.
  - destruct (fnmatch_filter P W files pattern) as [|f0 l] eqn:Hfilter.
    + rewrite IH. split.
      * intros (p & f & Hp & Hrest). exists p, f. split; [set_solver|tauto].
      * intros (p & f & Hp & Hf & Hm).
        apply elem_of_cons in Hp as [->|Hp]; [|by eauto].
        assert (Hin : f ∈ fnmatch_filter P W files pattern).
        { unfold fnmatch_filter. apply list_elem_of_filter.
          split; [exact Hm | by apply iter_set_elem]. }
        rewrite Hfilter in Hin. by apply elem_of_nil in Hin.
    + split; [intros _ | reflexivity].
      assert (Hin : f0 ∈ fnmatch_filter P W files pattern)
        by (rewrite Hfilter; set_solver).
      unfold fnmatch_filter in Hin. apply list_elem_of_filter in Hin as [Hm Hf].
      exists pattern, f0. split; [set_solver|]. split; [|exact Hm].
      by apply iter_set_elem.
Qed.

Lemma dotfile_step_adds_only h disabled item s s' :
  dotfile_step P W h disabled item s = Ok s' ->
  forall x, x ∈ s'.2 -> x ∈ s.2 \/ x = item.1.
Proof.
  destruct item as [linter c], s as [found linters]. unfold dotfile_step.
  intros Hstep. apply bind_inv_Ok in Hstep as (b & _ & Hstep).
  destruct b; simpl in *;
    repeat match type of Hstep with
           | context [if ?b then _ else _] => destruct b
           end;
    inversion Hstep; subst; simpl; intros x;
    rewrite ?add_unless_disabled_elem; set_solver.
Qed.

Lemma pattern_step_adds_only enabled disabled found files item
    (s s' : gset string) :
  pattern_step P W PATTERNS enabled disabled found files item s = Ok s' ->
  forall x, x ∈ s' -> x ∈ s \/ x = item.1.
Proof.
  destruct item as [linter c]. unfold pattern_step. intros Hstep.
  apply bind_inv_Ok in Hstep as (b & _ & Hstep).
  destruct b; inversion Hstep; subst; intros x;
    rewrite ?add_unless_disabled_elem; set_solver.
Qed.

(** The two loops of the autorun branch, taken apart. *)
Lemma linters_to_run_autorun_inv h ignore_paths enabled disabled s :
  linters_to_run P W LINTERS PATTERNS h true ignore_paths enabled disabled
    = Ok s ->
  exists found linters files,
    for_each LINTERS (dotfile_step P W h (merged disabled)) (∅, ∅)
      = Ok (found, linters)
    /\ all_filenames_in_dir P W h (Some (getcwd P)) ignore_paths = Ok files
    /\ for_each LINTERS
         (pattern_step P W PATTERNS (merged enabled) (merged disabled) found
            files) linters = Ok s.
Proof.
  unfold linters_to_run. rewrite !extend_split_merged, !bind_Ok. simpl negb.
  cbv iota. intros Hrun.
  apply bind_inv_Ok in Hrun as ([found linters] & Hfirst & Hrun).
  apply bind_inv_Ok in Hrun as (files & Hfiles & Hrun).
  by exists found, linters, files.
Qed.

Lemma linters_to_run_plain h ignore_paths enabled disabled :
  linters_to_run P W LINTERS PATTERNS h false ignore_paths enabled disabled
  = Ok (select_enabled LINTERS (merged enabled)).
Proof.
  unfold linters_to_run. by rewrite !extend_split_merged, !bind_Ok.
Qed.

End Selection.

(** X1: whatever the mode, the selector returns names of the table only:
    a name in the enabled list that is no tool of [LINTERS] is passed
    over, so [LINTERS.get(linter)] in [run_linters] always finds a
    configuration. *)
Theorem selection_is_within_the_table :
  forall (P : Platform) (W : World) (LINTERS : list (string * config))
         (PATTERNS : list (string * list string)) (h : list event)
         (autorun : bool)
         (ignore_paths enabled_linters disabled_linters : option (list string))
         (s : gset string),
    linters_to_run P W LINTERS PATTERNS h autorun ignore_paths enabled_linters
      disabled_linters = Ok s ->
    forall linter : string,
      linter ∈ s ->
      linter ∈ LINTERS.*1 /\ is_Some (dict_get linter LINTERS).
Proof.
  intros P W LINTERS PATTERNS h autorun ignore_paths enabled disabled s Hrun.
  assert (Hkeys : forall linter, linter ∈ s -> linter ∈ LINTERS.*1).
  { destruct autorun.
    - apply linters_to_run_autorun_inv in Hrun
        as (found & linters & files & Hfirst & _ & Hsecond).
      assert (Hlinters : forall x, x ∈ linters -> x ∈ LINTERS.*1).
      { change linters with ((found, linters).2).
        eapply (for_each_invariant_elem
                  (fun st : gmap string bool * gset string =>
                     forall x, x ∈ st.2 -> x ∈ LINTERS.*1));
          [ | | exact Hfirst ]; [|simpl; set_solver].
        intros item st st' Hitem Hst Hstep x Hx.
        destruct (dotfile_step_adds_only _ _ _ _ _ _ _ Hstep x Hx) as [?| ->];
          [by apply Hst | by apply list_elem_of_fmap_2]. }
      eapply (for_each_invariant_elem
                (fun st : gset string => forall x, x ∈ st -> x ∈ LINTERS.*1));
        [ | exact Hlinters | exact Hsecond ].
      intros item st st' Hitem Hst Hstep x Hx.
      destruct (pattern_step_adds_only _ _ _ _ _ _ _ _ _ _ Hstep x Hx)
        as [?| ->]; [by apply Hst | by apply list_elem_of_fmap_2].
    - rewrite linters_to_run_plain in Hrun. inversion Hrun; subst.
      intros linter. unfold select_enabled. rewrite select_enabled_acc.
      set_solver. }
  intros linter Hin. split; [by apply Hkeys|].
  specialize (Hkeys linter Hin). clear -Hkeys.
  induction LINTERS as [|[k v] l IH]; simpl.
  - by apply elem_of_nil in Hkeys.
  - destruct (String.eqb_spec linter k); [by eexists|].
    apply IH. simpl in Hkeys. set_solver.
Qed.

Section SelectionAutorun.

Variable P : Platform.
Variable W : World.
Variable LINTERS : list (string * config).
Variable PATTERNS : list (string * list string).

Lemma pattern_loop_keeps enabled disabled found files items
    (s s' : gset string) :
  for_each items
    (pattern_step P W PATTERNS enabled disabled found files) s = Ok s' ->
  s ⊆ s'.
Proof.
  intros Hrun.
  apply (for_each_invariant (fun st : gset string => s ⊆ st)
           (pattern_step P W PATTERNS enabled disabled found files))
    with (l := items) (s := s); [|done|exact Hrun].
  intros item st st' Hst Hstep. apply pattern_step_keeps in Hstep.
  set_solver.
Qed.

Lemma dotfile_loop_keeps h disabled items s s' :
  for_each items (dotfile_step P W h disabled) s = Ok s' -> s.2 ⊆ s'.2.
Proof.
  intros Hrun.
  apply (for_each_invariant
           (fun st : gmap string bool * gset string => s.2 ⊆ st.2)
           (dotfile_step P W h disabled))
    with (l := items) (s := s); [|done|exact Hrun].
  intros item st st' Hst Hstep.
  destruct (dotfile_step_keeps P W h disabled item st st' EmptyString Hstep)
    as [_ Hsub].
  set_solver.
Qed.

Lemma pattern_step_enabled enabled disabled found files linter c
    (s s' : gset string) :
  linter ∈ enabled -> linter ∉ disabled ->
  pattern_step P W PATTERNS enabled disabled found files (linter, c) s = Ok s' ->
  linter ∈ s'.
Proof.
  intros Hen Hdis. unfold pattern_step.
  rewrite (bool_decide_eq_true_2 _ Hen), bind_Ok.
  intros H. inversion H; subst. rewrite add_unless_disabled_elem. tauto.
Qed.

Lemma dotfile_step_owner h disabled linter c s s' :
  dotfiles_exist P W h c None = Ok true ->
  get_autorun c = true \/ opt_truthy (get_run_if_dotfile_in_root c) = true ->
  linter ∉ disabled ->
  dotfile_step P W h disabled (linter, c) s = Ok s' ->
  linter ∈ s'.2.
Proof.
  destruct s as [found linters]. unfold dotfile_step. intros -> Hwhy Hdis.
  rewrite bind_Ok, found_for_insert_eq.
  rewrite (bool_decide_eq_false_2 _ Hdis). simpl negb.
  rewrite andb_true_r. simpl.
  destruct (opt_truthy (get_run_if_dotfile_in_root c)) eqn:Hrun,
           (get_autorun c) eqn:Hauto;
    intros H; inversion H; subst; simpl;
    rewrite ?add_unless_disabled_elem; set_solver.
Qed.

Lemma should_autorun_off c files :
  get_autorun c = false -> should_autorun P W PATTERNS c files = Ok false.
Proof. unfold should_autorun. by intros ->. Qed.

Lemma dotfile_step_not_autorun h disabled y c s s' x :
  (y = x -> get_autorun c = false
            /\ opt_truthy (get_run_if_dotfile_in_root c) = false) ->
  x ∉ s.2 ->
  dotfile_step P W h disabled (y, c) s = Ok s' ->
  x ∉ s'.2.
Proof.
  intros Hoff Hx Hstep Hin.
  destruct (dotfile_step_adds_only P W h disabled (y, c) s s' Hstep x Hin)
    as [?|Heq]; [done|].
  simpl in Heq. subst y. destruct (Hoff eq_refl) as [Hauto Hrun].
  destruct s as [found linters]. unfold dotfile_step in Hstep.
  apply bind_inv_Ok in Hstep as (b & _ & Hstep).
  rewrite Hauto, Hrun in Hstep.
  destruct b; simpl in Hstep; rewrite andb_false_r in Hstep;
    inversion Hstep; subst; simpl in *; done.
Qed.

Lemma pattern_step_not_autorun enabled disabled found files y c
    (s s' : gset string) x :
  (y = x -> get_autorun c = false) ->
  x ∉ enabled -> x ∉ s ->
  pattern_step P W PATTERNS enabled disabled found files (y, c) s = Ok s' ->
  x ∉ s'.
Proof.
  intros Hoff Hen Hx Hstep Hin.
  destruct (pattern_step_adds_only P W PATTERNS enabled disabled found files
              (y, c) s s' Hstep x Hin) as [?|Heq]; [done|].
  simpl in Heq. subst y. unfold pattern_step in Hstep.
  rewrite (bool_decide_eq_false_2 _ Hen) in Hstep.
  rewrite (should_autorun_off c files (Hoff eq_refl)) in Hstep.
  destruct (negb _); simpl in Hstep; inversion Hstep; by subst.
Qed.

End SelectionAutorun.

(** X2: in autorun mode a tool of the table that is named in the enabled
    list and not in the disabled list is selected, whatever the markers
    and the files of the project are. *)
Theorem enabled_tool_is_selected_under_autorun :
  forall (P : Platform) (W : World) (LINTERS : list (string * config))
         (PATTERNS : list (string * list string)) (h : list event)
         (ignore_paths enabled_linters disabled_linters : option (list string))
         (s : gset string) (linter : string),
    linter ∈ LINTERS.*1 ->
    linter ∈ merged enabled_linters ->
    linter ∉ merged disabled_linters ->
    linters_to_run P W LINTERS PATTERNS h true ignore_paths enabled_linters
      disabled_linters = Ok s ->
    linter ∈ s.
Proof.
  intros P W LINTERS PATTERNS h ignore_paths enabled disabled s linter
         Hkey Hen Hdis Hrun.
  apply linters_to_run_autorun_inv in Hrun
    as (found & linters & files & _ & _ & Hsecond).
  apply list_elem_of_fmap in Hkey as ([k c] & -> & Hitem). simpl in *.
  apply list_elem_of_split in Hitem as (pre & post & HL).
  rewrite HL, for_each_app in Hsecond.
  apply bind_inv_Ok in Hsecond as (s1 & _ & Hsecond). simpl in Hsecond.
  apply bind_inv_Ok in Hsecond as (s2 & Hstep & Hpost).
  apply pattern_step_enabled in Hstep; [|done..].
  apply pattern_loop_keeps in Hpost. set_solver.
Qed.

(** X3: in autorun mode a tool whose own marker file is in the current
    directory is selected when it declares [autorun] or
    [run_if_dotfile_in_root], unless it is disabled. *)
Theorem marker_owner_is_selected :
  forall (P : Platform) (W : World) (LINTERS : list (string * config))
         (PATTERNS : list (string * list string)) (h : list event)
         (ignore_paths enabled_linters disabled_linters : option (list string))
         (s : gset string) (linter : string) (c : config),
    (linter, c) ∈ LINTERS ->
    dotfiles_exist P W h c None = Ok true ->
    get_autorun c = true \/ opt_truthy (get_run_if_dotfile_in_root c) = true ->
    linter ∉ merged disabled_linters ->
    linters_to_run P W LINTERS PATTERNS h true ignore_paths enabled_linters
      disabled_linters = Ok s ->
    linter ∈ s.
Proof.
  intros P W LINTERS PATTERNS h ignore_paths enabled disabled s linter c
         Hitem Hmark Hwhy Hdis Hrun.
  apply linters_to_run_autorun_inv in Hrun
    as (found & linters & files & Hfirst & _ & Hsecond).
  apply list_elem_of_split in Hitem as (pre & post & HL).
  rewrite HL, for_each_app in Hfirst.
  apply bind_inv_Ok in Hfirst as (s1 & _ & Hfirst). simpl in Hfirst.
  apply bind_inv_Ok in Hfirst as (s2 & Hstep & Hpost).
  apply dotfile_step_owner in Hstep; [|done..].
  apply dotfile_loop_keeps in Hpost. simpl in Hpost.
  apply pattern_loop_keeps in Hsecond. set_solver.
Qed.

(** X4: in autorun mode a tool that declares neither [autorun] nor
    [run_if_dotfile_in_root] is selected only through the enabled list:
    no marker file and no file pattern brings it in. *)
Theorem tool_without_autorun_needs_enabling :
  forall (P : Platform) (W : World) (LINTERS : list (string * config))
         (PATTERNS : list (string * list string)) (h : list event)
         (ignore_paths enabled_linters disabled_linters : option (list string))
         (s : gset string) (linter : string),
    (forall c, (linter, c) ∈ LINTERS ->
               get_autorun c = false
               /\ opt_truthy (get_run_if_dotfile_in_root c) = false) ->
    linter ∉ merged enabled_linters ->
    linters_to_run P W LINTERS PATTERNS h true ignore_paths enabled_linters
      disabled_linters = Ok s ->
    linter ∉ s.
Proof.
  intros P W LINTERS PATTERNS h ignore_paths enabled disabled s linter
         Hoff Hen Hrun.
  apply linters_to_run_autorun_inv in Hrun
    as (found & linters & files & Hfirst & _ & Hsecond).
  assert (Hlinters : linter ∉ linters).
  { change linters with ((found, linters).2).
    eapply (for_each_invariant_elem
              (fun st : gmap string bool * gset string => linter ∉ st.2));
      [ | | exact Hfirst ]; [|simpl; set_solver].
    intros [y c] st st' Hitem Hst Hstep.
    eapply dotfile_step_not_autorun; [|exact Hst|exact Hstep].
    intros ->. by apply Hoff. }
  eapply (for_each_invariant_elem (fun st : gset string => linter ∉ st));
    [ | exact Hlinters | exact Hsecond ].
  intros [y c] st st' Hitem Hst Hstep.
  eapply pattern_step_not_autorun; [|exact Hen|exact Hst|exact Hstep].
  intros ->. by apply Hoff.
Qed.

Section SelectionByPattern.

Variable P : Platform.
Variable W : World.
Variable LINTERS : list (string * config).
Variable PATTERNS : list (string * list string).

Lemma found_for_empty language : found_for ∅ language = false.
Proof. unfold found_for. by rewrite lookup_empty. Qed.

Lemma dotfile_loop_no_marker h disabled items :
  (forall y c, (y, c) ∈ items -> dotfiles_exist P W h c None = Ok false) ->
  for_each items (dotfile_step P W h disabled) (∅, ∅) = Ok (∅, ∅).
Proof.
  induction items as [|[y c] items IH]; intros Hno; [reflexivity|].
  simpl. rewrite (Hno y c) by set_solver. rewrite bind_Ok.
  rewrite found_for_empty. simpl. apply IH.
  intros y' c' Hin. apply (Hno y' c'). set_solver.
Qed.

Lemma pattern_loop_elem enabled disabled files items (acc s : gset string) :
  for_each items (pattern_step P W PATTERNS enabled disabled ∅ files) acc
    = Ok s ->
  forall x,
    x ∈ s <->
    x ∈ acc
    \/ ((x ∉ disabled)
        /\ exists c, (x, c) ∈ items
                     /\ (x ∈ enabled
                         \/ should_autorun P W PATTERNS c files = Ok true)).
Proof.
  revert acc. induction items as [|[y c] items IH]; intros acc Hrun x.
  - simpl in Hrun. inversion Hrun; subst. split; [tauto|].
    intros [?|(_ & c & Hin & _)]; [done | by apply elem_of_nil in Hin].
  - simpl in Hrun. apply bind_inv_Ok in Hrun as (s1 & Hstep & Hrest).
    rewrite (IH _ Hrest x). clear IH Hrest.
    unfold pattern_step in Hstep. rewrite found_for_empty in Hstep.
    simpl negb in Hstep. cbv iota in Hstep.
    assert (Hs1 : x ∈ s1 <->
                  x ∈ acc \/ (x = y /\ (y ∉ disabled)
                              /\ (y ∈ enabled
                                  \/ should_autorun P W PATTERNS c files
                                     = Ok true))).
    { case_bool_decide as Hen.
      - rewrite bind_Ok in Hstep. inversion Hstep; subst.
        rewrite add_unless_disabled_elem. tauto.
      - destruct (should_autorun P W PATTERNS c files) as [[|]|e] eqn:Hauto;
          simpl in Hstep; inversion Hstep; subst;
          rewrite ?add_unless_disabled_elem; split; try tauto.
        intros [?|(_ & _ & [?|?])]; [done|done|discriminate]. }
    rewrite Hs1. split.
    + intros [[?|(-> & Hdis & Hwhy)]|(Hdis & c' & Hin & Hwhy)].
      * by left.
      * right. split; [done|]. exists c. split; [set_solver|done].
      * right. split; [done|]. exists c'. split; [set_solver|done].
    + intros [?|(Hdis & c' & Hin & Hwhy)]; [by left; left|].
      apply elem_of_cons in Hin as [Heq|Hin].
      * inversion Heq; subst. left. right. done.
      * right. split; [done|]. by exists c'.
Qed.

End SelectionByPattern.

(** X5: in autorun mode, in a project where no tool of the table finds one
    of its marker files, the selection is decided by the files alone: a
    tool is selected exactly when it is not disabled and it is either
    named in the enabled list or declares [autorun] with a pattern of its
    language matching one of the scanned files. *)
Theorem selection_without_markers :
  forall (P : Platform) (W : World) (LINTERS : list (string * config))
         (PATTERNS : list (string * list string)) (h : list event)
         (ignore_paths enabled_linters disabled_linters : option (list string))
         (files s : gset string),
    (forall linter c, (linter, c) ∈ LINTERS ->
                      dotfiles_exist P W h c None = Ok false) ->
    all_filenames_in_dir P W h (Some (getcwd P)) ignore_paths = Ok files ->
    linters_to_run P W LINTERS PATTERNS h true ignore_paths enabled_linters
      disabled_linters = Ok s ->
    forall linter : string,
      linter ∈ s <->
      (linter ∉ merged disabled_linters)
      /\ exists c, (linter, c) ∈ LINTERS
                   /\ (linter ∈ merged enabled_linters
                       \/ should_autorun P W PATTERNS c files = Ok true).
Proof.
  intros P W LINTERS PATTERNS h ignore_paths enabled disabled files s
         Hno Hfiles Hrun linter.
  apply linters_to_run_autorun_inv in Hrun
    as (found & linters & files' & Hfirst & Hfiles' & Hsecond).
  rewrite Hfiles in Hfiles'. inversion Hfiles'; subst files'.
  rewrite (dotfile_loop_no_marker P W h _ LINTERS Hno) in Hfirst.
  inversion Hfirst; subst found linters.
  rewrite (pattern_loop_elem P W PATTERNS _ _ _ _ _ _ Hsecond linter).
  set_solver.
Qed.

(** X6: [should_autorun] answers yes exactly for a tool that declares
    [autorun] and whose language has a pattern matching one of the files;
    a tool that does not declare [autorun] gets no even when its language
    has no patterns, and an autorun tool of a language without patterns
    raises [TypeError]. *)
Theorem should_autorun_matches_a_file :
  forall (P : Platform) (W : World) (PATTERNS : list (string * list string))
         (c : config) (files : gset string),
    (should_autorun P W PATTERNS c files = Ok true <->
       get_autorun c = true
       /\ exists patterns pattern f,
            dict_get (get_language c) PATTERNS = Some patterns
            /\ pattern ∈ patterns /\ f ∈ files
            /\ fnmatch P f pattern = true)
    /\ (get_autorun c = false ->
        should_autorun P W PATTERNS c files = Ok false)
    /\ (get_autorun c = true ->
        dict_get (get_language c) PATTERNS = None ->
        should_autorun P W PATTERNS c files = Raise TypeError).
Proof.
  intros P W PATTERNS c files. split; [|split].
  - unfold should_autorun. destruct (get_autorun c).
    + destruct (dict_get (get_language c) PATTERNS) as [patterns|]; simpl.
      * split.
        -- intros H. injection H as H.
           apply any_pattern_matches_true in H as (p & f & Hp & Hf & Hm).
           split; [done|]. by exists patterns, p, f.
        -- intros (_ & patterns' & p & f & Heq & Hp & Hf & Hm).
           inversion Heq; subst. f_equal.
           apply any_pattern_matches_true. by exists p, f.
      * split; [discriminate|].
        intros (_ & patterns & p & f & Heq & _). discriminate.
    + split; [discriminate | intros [? _]; discriminate].
  - apply should_autorun_off.
  - intros Hauto Hnone. unfold should_autorun. by rewrite Hauto, Hnone.
Qed.

(** X7: [dotfiles_exist] on a directory that can be listed answers yes
    exactly when one of the tool's marker names, stripped of surrounding
    white space, is an entry of the directory; a tool without marker names
    gets no without the directory being read, even when it does not exist;
    with marker names and a directory that cannot be listed it raises
    [OSError]. *)
Theorem dotfiles_exist_finds_an_entry :
  forall (P : Platform) (W : World) (h : list event) (c : config)
         (path : option string),
    (forall d, fs W h (or_str path (getcwd P)) = Some d ->
       exists b, dotfiles_exist P W h c path = Ok b
                 /\ (b = true <->
                     exists dotfile, dotfile ∈ get_dotfiles c
                                     /\ Str.strip dotfile ∈ entries d))
    /\ (get_dotfiles c = [] -> dotfiles_exist P W h c path = Ok false)
    /\ (get_dotfiles c <> [] -> fs W h (or_str path (getcwd P)) = None ->
        dotfiles_exist P W h c path = Raise OSError).
Proof.
  intros P W h c path. unfold dotfiles_exist.
  generalize (or_str path (getcwd P)) as p. intros p.
  split; [|split].
  - intros d Hd. induction (get_dotfiles c) as [|dotfile rest IH]; simpl.
    + exists false. split; [done|]. split; [discriminate|].
      intros (x & Hx & _). by apply elem_of_nil in Hx.
    + unfold listdir. rewrite Hd, bind_Ok. case_bool_decide as Hin.
      * exists true. split; [done|]. split; [|done]. intros _.
        exists dotfile. split; [set_solver | done].
      * destruct IH as (b & Hb & Hiff). exists b. split; [exact Hb|].
        rewrite Hiff. split.
        -- intros (x & Hx & Hxd). exists x. split; [set_solver | done].
        -- intros (x & Hx & Hxd).
           apply elem_of_cons in Hx as [->|Hx]; [done | by exists x].
  - by intros ->.
  - intros Hne Hnone. destruct (get_dotfiles c) as [|dotfile rest]; [done|].
    simpl. unfold listdir. by rewrite Hnone.
Qed.

(** ** The scanner *)

Section ScannerMore.

Variable P : Platform.
Variable W : World.

Lemma should_ignore_path_loop_raise path rules e :
  relpath P path = Raise e -> rules <> [] ->
  should_ignore_path_loop P path rules = Raise e.
Proof.
  intros Hrel Hne. destruct rules as [|r rules]; [done|].
  simpl. unfold ignore_path_matches. by rewrite Hrel.
Qed.

Lemma should_ignore_path_loop_ok path rules rel :
  relpath P path = Ok rel ->
  exists b, should_ignore_path_loop P path rules = Ok b.
Proof.
  intros Hrel. induction rules as [|r rules IH]; simpl; [by eauto|].
  unfold ignore_path_matches. rewrite Hrel, bind_Ok. simpl.
  destruct (_ || _ || _ || _); [by eauto | exact IH].
Qed.


Lemma os_walk_collected h ignore_paths d :
  forall top acc r,
    collected_from P W h ignore_paths acc ->
    os_walk P (scan_directory P W h ignore_paths) top d acc = Ok r ->
    collected_from P W h ignore_paths r.
Proof.
  induction d as [subdirs filenames IH] using dir_nested_ind.
  intros top acc r Hacc. simpl.
  destruct (scan_directory P W h ignore_paths top (subdirs.*1) filenames
              (acc.1)) as [[dirnames a]|e] eqn:Hbody; [|discriminate].
  assert (Hnode : collected_from P W h ignore_paths (a, acc.2 ++ [top])).
  { unfold scan_directory in Hbody.
    apply bind_inv_Ok in Hbody as (dn & _ & Hbody).
    apply bind_inv_Ok in Hbody as (ignored & Hign & Hbody).
    destruct ignored; inversion Hbody; subst; intros p Hp; simpl in *.
    - destruct (Hacc p Hp) as (root & f & Hroot & Hrest).
      exists root, f. split; [set_solver | exact Hrest].
    - apply elem_of_union in Hp as [Hp|Hp].
      + destruct (Hacc p Hp) as (root & f & Hroot & Hrest).
        exists root, f. split; [set_solver | exact Hrest].
      + apply elem_of_list_to_set in Hp. unfold text_files in Hp.
        apply list_elem_of_filter in Hp as [Htext Hp].
        apply list_elem_of_fmap in Hp as (f & -> & _).
        exists top, f. split; [set_solver|]. by repeat split. }
  clear Hbody Hacc. revert Hnode. generalize (a, acc.2 ++ [top]).
  clear acc a.
  induction IH as [|[name sub] l Hsub _ IHl]; intros acc Hacc Hrun.
  - inversion Hrun; by subst.
  - simpl in Hsub. case_bool_decide; [|by apply (IHl acc)].
    destruct (os_walk P _ (path_join P top name) sub acc) as [acc'|e] eqn:Hw;
      [|discriminate].
    apply (IHl acc'); [|exact Hrun].
    by apply (Hsub (path_join P top name) acc).
Qed.

(** The walk yields its starting directory first. *)
Lemma os_walk_visits_top {A}
    (body : string -> list string -> list string -> A ->
            result (list string * A)) (d : dir) :
  forall top acc r,
    os_walk P body top d acc = Ok r ->
    exists more, r.2 = acc.2 ++ top :: more.
Proof.
  induction d as [subdirs filenames IH] using dir_nested_ind.
  intros top acc r. simpl.
  destruct (body top (subdirs.*1) filenames (acc.1)) as [[dirnames a]|e];
    [|discriminate].
  assert (Hgen : forall acc0 : A * list string,
             (fix descend (l : list (string * dir)) (acc : A * list string)
                : result (A * list string) :=
                match l with
                | [] => Ok acc
                | (name, sub) :: l' =>
                    if bool_decide (name ∈ dirnames) then
                      match os_walk P body (path_join P top name) sub acc with
                      | Raise e => Raise e
                      | Ok acc' => descend l' acc'
                      end
                    else descend l' acc
                end) subdirs acc0 = Ok r ->
             exists more, r.2 = acc0.2 ++ more).
  { induction IH as [|[name sub] l Hsub _ IHl]; intros acc0 Hrun.
    - inversion Hrun; subst. exists []. by rewrite app_nil_r.
    - simpl in Hsub. case_bool_decide; [|by apply IHl].
      destruct (os_walk P body (path_join P top name) sub acc0)
        as [acc'|e] eqn:Hw; [|discriminate].
      destruct (Hsub _ _ _ Hw) as [m1 Hm1].
      destruct (IHl _ Hrun) as [m2 Hm2].
      exists ((path_join P top name :: m1) ++ m2).
      by rewrite Hm2, Hm1, <- app_assoc. }
  intros Hrun. destruct (Hgen _ Hrun) as [more Hmore].
  exists more. simpl in Hmore. by rewrite Hmore, <- app_assoc.
Qed.

End ScannerMore.

(** X8: the order of the ignore rules does not matter to
    [should_ignore_path]: two lists with the same rules, in any order and
    multiplicity, give the same answer or the same exception; with no rule
    the answer is no, and the path is not even made relative. *)
Theorem ignore_rules_order_is_irrelevant :
  forall (P : Platform) (path : string) (rules1 rules2 : list string),
    (forall rule, rule ∈ rules1 <-> rule ∈ rules2) ->
    should_ignore_path P path (Some rules1)
    = should_ignore_path P path (Some rules2).
Proof.
  intros P path rules1 rules2 Hsame. unfold should_ignore_path. simpl.
  destruct (relpath P path) as [rel|e] eqn:Hrel.
  - destruct (should_ignore_path_loop_ok P path rules1 rel Hrel) as [b1 H1].
    destruct (should_ignore_path_loop_ok P path rules2 rel Hrel) as [b2 H2].
    rewrite H1, H2. f_equal.
    pose proof (should_ignore_path_true P path rules1) as T1.
    pose proof (should_ignore_path_true P path rules2) as T2.
    unfold should_ignore_path in T1, T2. simpl in T1, T2.
    rewrite H1 in T1. rewrite H2 in T2.
    assert (Hiff : Ok b1 = Ok true <-> Ok b2 = Ok true :> result bool).
    { rewrite T1, T2. split; intros (rule & r & Hin & Hrest);
        exists rule, r; (split; [by apply Hsame | exact Hrest]). }
    destruct b1, b2; try reflexivity.
    + destruct Hiff as [Hiff _]. specialize (Hiff eq_refl). discriminate.
    + destruct Hiff as [_ Hiff]. specialize (Hiff eq_refl). discriminate.
  - destruct rules1 as [|r1 l1], rules2 as [|r2 l2].
    + reflexivity.
    + exfalso. assert (r2 ∈ (@nil string)) by (apply Hsame; set_solver).
      by apply elem_of_nil in H.
    + exfalso. assert (r1 ∈ (@nil string)) by (apply Hsame; set_solver).
      by apply elem_of_nil in H.
    + rewrite !(should_ignore_path_loop_raise P path _ e Hrel); done.
Qed.

(** X9: what [all_filenames_in_dir] returns holds only text files, each
    lying directly in a directory that the walk visited and that the
    ignore rules do not match; the first directory visited is the
    starting one. *)
Theorem scanned_files_are_text_in_kept_directories :
  forall (P : Platform) (W : World) (h : list event) (path : option string)
         (ignore_paths : option (list string))
         (paths : gset string) (visited : list string),
    walk_filenames P W h path ignore_paths = Ok (paths, visited) ->
    all_filenames_in_dir P W h path ignore_paths = Ok paths
    /\ (forall p, p ∈ paths ->
          exists root filename,
            root ∈ visited
            /\ should_ignore_path P root ignore_paths = Ok false
            /\ tags_text W h p = true
            /\ p = path_join P root filename)
    /\ (is_Some (fs W h (or_str path (getcwd P))) ->
        head visited = Some (or_str path (getcwd P))).
Proof.
  intros P W h path ignore_paths paths visited Hwalk.
  split; [unfold all_filenames_in_dir; by rewrite Hwalk|].
  unfold walk_filenames in Hwalk.
  destruct (fs W h (or_str path (getcwd P))) as [d|] eqn:Hfs.
  - split.
    + apply (os_walk_collected P W h ignore_paths d (or_str path (getcwd P))
               (∅, []) (paths, visited));
        [|exact Hwalk].
      intros p Hp. simpl in Hp. set_solver.
    + intros _. destruct (os_walk_visits_top P _ d _ _ _ Hwalk) as [more Hm].
      simpl in Hm. by rewrite Hm.
  - inversion Hwalk; subst. split; [set_solver|]. intros [? ?]; discriminate.
Qed.







(** ** The installer *)

Section InstallerMore.

Variable W : World.

Lemma install_loop_all_recorded c install_cmds self :
  (forall install_cmd, install_cmd ∈ install_cmds ->
                       install_cmd ∈ previous_install_commands self) ->
  install_loop W c install_cmds self = (Ok tt, self).
Proof.
  induction install_cmds as [|install_cmd rest IH]; intros Hall;
    [reflexivity|].
  simpl. rewrite bool_decide_eq_true_2 by (apply Hall; set_solver).
  apply IH. intros x Hx. apply Hall. set_solver.
Qed.

Lemma install_loop_skip c pre install_cmds self :
  (forall install_cmd, install_cmd ∈ pre ->
                       install_cmd ∈ previous_install_commands self) ->
  install_loop W c (pre ++ install_cmds) self
  = install_loop W c install_cmds self.
Proof.
  induction pre as [|x pre IH]; intros Hall; [reflexivity|].
  simpl. rewrite bool_decide_eq_true_2 by (apply Hall; set_solver).
  apply IH. intros y Hy. apply Hall. set_solver.
Qed.

(** One attempt, by what the help command and the install command do. *)
Lemma install_loop_attempt c install_cmd rest self :
  install_cmd ∉ previous_install_commands self ->
  install_loop W c (install_cmd :: rest) self =
  let s1 := {| previous_install_commands :=
                 previous_install_commands self ++ [install_cmd];
               history := history self |} in
  let s2 := with_events s1 [EvExec SiteHelp (get_help c)] in
  let s3 := with_events s2 [EvExec SiteInstall install_cmd] in
  let attempt :=
    match exec W (history s2) install_cmd with
    | Exited _ _ _ => install_loop W c rest s3
    | Failed e =>
        if except_OSError e then install_loop W c rest s3
        else (Raise e, s3)
    end in
  match exec W (history self) (get_help c) with
  | Exited returncode _ _ =>
      if (returncode =? 0)%Z then (Ok tt, s2) else attempt
  | Failed e =>
      if except_CalledProcessError_OSError e then attempt
      else (Raise e, s2)
  end.
Proof.
  intros Hnew. cbv zeta. simpl install_loop.
  rewrite (bool_decide_eq_false_2 _ Hnew).
  rewrite M_bind_eq. simpl. rewrite M_bind_eq. unfold try_except at 1.
  rewrite M_bind_eq. simpl.
  destruct (exec W (history self) (get_help c)) as [rc out err|e]; simpl.
  - destruct (rc =? 0)%Z; simpl; [reflexivity|].
    rewrite M_bind_eq. unfold try_except. rewrite M_bind_eq. simpl.
    unfold with_events. simpl.
    destruct (exec W _ install_cmd) as [rc' out' err'|e']; simpl;
      [reflexivity|].
    destruct (except_OSError e'); reflexivity.
  - destruct (except_CalledProcessError_OSError e); simpl; [|reflexivity].
    rewrite M_bind_eq. unfold try_except. rewrite M_bind_eq. simpl.
    unfold with_events. simpl.
    destruct (exec W _ install_cmd) as [rc' out' err'|e']; simpl;
      [reflexivity|].
    destruct (except_OSError e'); reflexivity.
Qed.

Lemma install_loop_returns c install_cmds self :
  (forall h command e, exec W h command = Failed e -> e = OSError) ->
  (install_loop W c install_cmds self).1 = Ok tt.
Proof.
  intros Hos. revert self.
  induction install_cmds as [|install_cmd rest IH]; intros self;
    [reflexivity|].
  destruct (decide (install_cmd ∈ previous_install_commands self)) as [Hin|Hnew].
  - simpl. rewrite (bool_decide_eq_true_2 _ Hin). apply IH.
  - rewrite (install_loop_attempt c install_cmd rest self Hnew). cbv zeta.
    destruct (exec W (history self) (get_help c)) as [rc out err|e] eqn:Hh.
    + destruct (rc =? 0)%Z; [reflexivity|].
      destruct (exec W _ install_cmd) as [rc' out' err'|e'] eqn:Hi;
        [apply IH|].
      apply Hos in Hi. subst e'. apply IH.
    + apply Hos in Hh. subst e. simpl.
      destruct (exec W _ install_cmd) as [rc' out' err'|e'] eqn:Hi;
        [apply IH|].
      apply Hos in Hi. subst e'. apply IH.
Qed.

Lemma install_trusted_loop_run install_cmds self :
  (forall h command e, exec W h command = Failed e -> e = OSError) ->
  install_trusted_loop W install_cmds self
  = (Ok tt, with_events self (map (EvExec SiteTrusted) install_cmds)).
Proof.
  intros Hos. revert self.
  induction install_cmds as [|install_cmd rest IH]; intros self; simpl.
  - by rewrite with_events_nil.
  - rewrite M_bind_eq. unfold try_except. rewrite M_bind_eq. simpl.
    fold (with_events self [EvExec SiteTrusted install_cmd]).
    destruct (exec W (history self) install_cmd) as [rc out err|e] eqn:He;
      simpl.
    + rewrite IH, with_events_app. reflexivity.
    + apply Hos in He. subst e. simpl. rewrite IH, with_events_app.
      reflexivity.
Qed.

End InstallerMore.

(** X11: a tool whose install commands are all in the ledger already costs
    nothing: [install_linter] runs no command, not even the help probe,
    and leaves the runner as it is. *)
Theorem recorded_install_commands_are_skipped :
  forall (W : World) (c : config) (self : runner),
    (forall install_cmd, install_cmd ∈ get_install c ->
                         install_cmd ∈ previous_install_commands self) ->
    await (install_linter W c) self = (Ok tt, self).
Proof. intros W c self Hall. simpl. by apply install_loop_all_recorded. Qed.

(** X12: when the help command of a tool exits with 0, the first install
    command not yet in the ledger is recorded there but not run, the
    rest of the install list is neither recorded nor run, and the help
    probe is the only command executed. *)
Theorem installed_tool_is_not_reinstalled :
  forall (W : World) (c : config) (self : runner)
         (pre rest : list cmd) (install_cmd : cmd) (stdout stderr : string),
    get_install c = pre ++ install_cmd :: rest ->
    (forall x, x ∈ pre -> x ∈ previous_install_commands self) ->
    install_cmd ∉ previous_install_commands self ->
    exec W (history self) (get_help c) = Exited 0 stdout stderr ->
    await (install_linter W c) self
    = (Ok tt,
       {| previous_install_commands :=
            previous_install_commands self ++ [install_cmd];
          history := history self ++ [EvExec SiteHelp (get_help c)] |}).
Proof.
  intros W c self pre rest install_cmd out err Hlist Hpre Hnew Hhelp.
  simpl. rewrite Hlist, (install_loop_skip W c pre _ self Hpre).
  rewrite (install_loop_attempt W c install_cmd rest self Hnew). cbv zeta.
  by rewrite Hhelp.
Qed.

(** X13: [install_linter] passes over a failed spawn: if the subprocesses
    of a world fail with [OSError] only, it returns normally for every
    tool and every runner.  An exception of another class raised by an
    install command is not handled: it leaves [install_linter], and the
    rest of the install list is not tried. *)
Theorem install_failures_are_passed_over :
  forall (W : World) (c : config) (self : runner),
    ((forall h command e, exec W h command = Failed e -> e = OSError) ->
     (await (install_linter W c) self).1 = Ok tt)
    /\ (forall install_cmd rest returncode stdout stderr e,
          get_install c = install_cmd :: rest ->
          install_cmd ∉ previous_install_commands self ->
          exec W (history self) (get_help c)
            = Exited returncode stdout stderr ->
          returncode <> 0%Z ->
          exec W (history self ++ [EvExec SiteHelp (get_help c)]) install_cmd
            = Failed e ->
          e <> OSError ->
          await (install_linter W c) self
          = (Raise e,
             {| previous_install_commands :=
                  previous_install_commands self ++ [install_cmd];
                history := history self
                           ++ [EvExec SiteHelp (get_help c);
                               EvExec SiteInstall install_cmd] |})).
Proof.
  intros W c self. split.
  - intros Hos. simpl. by apply install_loop_returns.
  - intros install_cmd rest rc out err e Hlist Hnew Hhelp Hrc Hinst He.
    simpl. rewrite Hlist.
    rewrite (install_loop_attempt W c install_cmd rest self Hnew). cbv zeta.
    rewrite Hhelp. apply Z.eqb_neq in Hrc. rewrite Hrc.
    unfold with_events at 2. simpl history. rewrite Hinst.
    assert (Hclass : except_OSError e = false) by (by destruct e).
    rewrite Hclass. unfold with_events. simpl. by rewrite <- app_assoc.
Qed.

(** X14: the body of [install_trusted], once awaited, runs every command
    of [TRUSTED_INSTALL] in order and returns, in a world whose
    subprocesses fail with [OSError] only. *)
Theorem install_trusted_runs_the_whole_list :
  forall (W : World) (TRUSTED_INSTALL : list cmd) (self : runner),
    (forall h command e, exec W h command = Failed e -> e = OSError) ->
    await (install_trusted W TRUSTED_INSTALL) self
    = (Ok tt, with_events self (map (EvExec SiteTrusted) TRUSTED_INSTALL)).
Proof.
  intros W TRUSTED_INSTALL self Hos. simpl.
  by apply install_trusted_loop_run.
Qed.

(** ** The run *)

Section RunMore.

Variable P : Platform.
Variable W : World.
Variable LINTERS : list (string * config).
Variable PATTERNS : list (string * list string).
Variable install autorun : bool.
Variable config_dir : option string.

Lemma prefix_and_filter_no_list linter msgs D :
  prefix_and_filter P linter None msgs = Ok D -> D = ∅.
Proof.
  destruct msgs as [|msg rest]; simpl; intros H; [by inversion H|].
  discriminate.
Qed.

(** Without an ignore list the second [try] block adds nothing. *)
Lemma run_linter_no_ignore_list linter messages self :
  (run_linter P W LINTERS PATTERNS install autorun None config_dir linter
     messages self).1 = Ok messages.
Proof.
  rewrite run_linter_unfold. cbv zeta.
  destruct (install_and_run _ _ _ _ _ _ _ _ self) as [[output|e] s1];
    [|reflexivity].
  unfold parse_and_add. destruct (output_truthy output); [|reflexivity].
  rewrite M_bind_eq.
  destruct (dict_get linter LINTERS) as [c|]; simpl; [|reflexivity].
  rewrite !M_bind_eq. simpl.
  destruct (parse W (get_parser c) output) as [msgs|e]; simpl; [|reflexivity].
  rewrite M_bind_eq. simpl.
  destruct (prefix_and_filter P linter None msgs) as [D|e] eqn:HD; simpl;
    [|reflexivity].
  apply prefix_and_filter_no_list in HD. subst D.
  unfold Messages.add_messages. f_equal. set_solver.
Qed.

Lemma run_loop_no_ignore_list linters messages self :
  (run_loop P W LINTERS PATTERNS install autorun None config_dir linters
     messages self).1 = Ok messages.
Proof.
  revert messages self.
  induction linters as [|linter rest IH]; intros messages self;
    [reflexivity|].
  destruct (should_stop W (history self)) eqn:Hstop.
  - by rewrite run_loop_stop.
  - pose proof (run_linter_no_ignore_list linter messages
                  (with_events self [EvShouldStop])) as Hrun.
    destruct (run_linter _ _ _ _ _ _ _ _ _ _ _) as [r s1] eqn:Hr.
    simpl in Hrun. subst r.
    rewrite (run_loop_go _ _ _ _ _ _ _ _ _ _ _ _ _ _ Hstop Hr). apply IH.
Qed.

End RunMore.

(** X15: the only exception that can leave [lint] is one raised by the
    selection: [lint] raises exactly what [linters_to_run] raises on the
    world as it is after the opening of the run; so without autorun
    [lint] always returns. *)
Theorem lint_raises_only_from_the_selection :
  forall (P : Platform) (W : World) (LINTERS : list (string * config))
         (PATTERNS : list (string * list string))
         (TRUSTED_INSTALL : list cmd) (INSTALL_DIRS : list string)
         (install autorun : bool) (ignore_paths : option (list string))
         (config_dir : option string)
         (enabled_linters disabled_linters : option (list string))
         (trusted : bool) (self : runner),
    (forall e,
        (lint P W LINTERS PATTERNS TRUSTED_INSTALL INSTALL_DIRS install
           autorun ignore_paths config_dir enabled_linters disabled_linters
           trusted self).1 = Raise e
        <-> linters_to_run P W LINTERS PATTERNS
              (history (with_events self (opening_events INSTALL_DIRS)))
              autorun ignore_paths enabled_linters disabled_linters
            = Raise e)
    /\ (autorun = false ->
        exists out,
          (lint P W LINTERS PATTERNS TRUSTED_INSTALL INSTALL_DIRS install
             autorun ignore_paths config_dir enabled_linters disabled_linters
             trusted self).1 = Ok out).
Proof.
  intros. split.
  - intros e. rewrite lint_unfold. cbv zeta.
    destruct (linters_to_run _ _ _ _ _ _ _ _ _) as [linters|e'] eqn:Hsel.
    + destruct (run_loop_returns P W LINTERS PATTERNS install autorun
                  ignore_paths config_dir (iter_set W linters) Messages.new
                  (with_events self (opening_events INSTALL_DIRS)))
        as (out & s' & -> & _).
      simpl. split; discriminate.
    + simpl. split; intros H; inversion H; reflexivity.
  - intros ->. rewrite lint_unfold. cbv zeta.
    rewrite linters_to_run_plain.
    destruct (run_loop_returns P W LINTERS PATTERNS install false
                ignore_paths config_dir
                (iter_set W (select_enabled LINTERS (merged enabled_linters)))
                Messages.new
                (with_events self (opening_events INSTALL_DIRS)))
      as (out & s' & -> & _).
    by exists out.
Qed.

(** X16: with the ignore list absent ([None], the default of [lint]) a
    run reports nothing: the check [should_ignore_path(msg[0], None)] in
    the comprehension raises for the first diagnostic of every tool, the
    handler drops the tool's diagnostics, and the set [lint] returns, when
    it returns, is empty. *)
Theorem absent_ignore_list_loses_every_diagnostic :
  forall (P : Platform) (W : World) (LINTERS : list (string * config))
         (PATTERNS : list (string * list string))
         (TRUSTED_INSTALL : list cmd) (INSTALL_DIRS : list string)
         (install autorun : bool) (config_dir : option string)
         (enabled_linters disabled_linters : option (list string))
         (trusted : bool) (self : runner) (out : gset diagnostic),
    (lint P W LINTERS PATTERNS TRUSTED_INSTALL INSTALL_DIRS install autorun
       None config_dir enabled_linters disabled_linters trusted self).1
    = Ok out ->
    out = ∅.
Proof.
  intros P W LINTERS PATTERNS TRUSTED_INSTALL INSTALL_DIRS install autorun
         config_dir enabled disabled trusted self out.
  rewrite lint_unfold. cbv zeta.
  destruct (linters_to_run _ _ _ _ _ _ _ _ _) as [linters|e]; [|discriminate].
  rewrite run_loop_no_ignore_list. intros H. by inversion H.
Qed.

(** ** Per-file dispatch and command resolution *)

Section PerFile.

Variable P : Platform.
Variable W : World.




Lemma fnmatch_filter_empty pattern : fnmatch_filter P W ∅ pattern = [].
Proof. unfold fnmatch_filter. by rewrite iter_set_empty. Qed.

Lemma per_file_commands_empty h command patterns :
  per_file_commands P W h command ∅ patterns = [].
Proof.
  unfold per_file_commands. induction patterns as [|pattern rest IH];
    [reflexivity|].
  simpl. by rewrite fnmatch_filter_empty, IH.
Qed.

End PerFile.


(** X18: command resolution.  A marker file of the tool in the current
    directory makes [run_config] return the plain [run] command,
    whatever [config_dir] is.  Without one, a [config_dir] that holds no
    marker file of the tool is the same as none given, and a [config_dir]
    that cannot be listed raises [OSError] for a tool that has marker
    names. *)
Theorem run_config_chooses_the_configuration :
  forall (P : Platform) (W : World) (h : list event) (c : config) (d : string),
    (dotfiles_exist P W h c None = Ok true -> get_run c <> [] ->
     forall config_dir, run_config P W h c config_dir = Ok (get_run c))
    /\ (dotfiles_exist P W h c (Some d) = Ok false ->
        run_config P W h c (Some d) = run_config P W h c None)
    /\ (dotfiles_exist P W h c None = Ok false ->
        Str.truthy d = true -> get_dotfiles c <> [] -> fs W h d = None ->
        run_config P W h c (Some d) = Raise OSError).
Proof.
  intros P W h c d. split; [|split].
  - intros Hhere Hrun config_dir. unfold run_config.
    rewrite Hhere, bind_Ok. by destruct (get_run c).
  - intros Hthere. unfold run_config.
    destruct (dotfiles_exist P W h c None) as [here|e]; [|reflexivity].
    rewrite !bind_Ok. destruct (here && list_truthy (get_run c));
      [reflexivity|].
    rewrite Hthere. by destruct (Str.truthy d).
  - intros Hhere Htruthy Hdot Hfs. unfold run_config.
    rewrite Hhere, bind_Ok. simpl. rewrite Htruthy.
    unfold dotfiles_exist, or_str. rewrite Htruthy.
    destruct (get_dotfiles c) as [|dotfile rest]; [done|].
    simpl. unfold listdir. by rewrite Hfs.
Qed.

(** X19: [run_linters] hands [config_dir] to [run_per_file] in the place
    of its parameter [path], so a per-file tool scans the configuration
    directory, not the project: when that directory cannot be listed, the
    tool runs on no file at all and its output is the empty list, whatever
    the project holds. *)
Theorem per_file_tool_scans_config_dir :
  forall (P : Platform) (W : World) (PATTERNS : list (string * list string))
         (install autorun : bool) (ignore_paths : option (list string))
         (c : config) (d : string) (command : cmd) (patterns : list string)
         (self : runner),
    get_run_per_file c = true ->
    (install || autorun) && list_truthy (get_install c) = false ->
    Str.truthy d = true ->
    fs W (history self) d = None ->
    run_config P W (history self) c None = Ok command ->
    dict_get (get_language c) PATTERNS = Some patterns ->
    install_and_run P W PATTERNS install autorun ignore_paths (Some d)
      (Some c) self
    = (Ok (OutList []), self).
Proof.
  intros P W PATTERNS install autorun ignore_paths c d command patterns self
         Hper Hinst Htruthy Hfs Hcmd Hpat.
  unfold install_and_run. rewrite M_bind_eq. simpl deref. cbv beta iota.
  unfold ret at 1. cbv beta iota.
  rewrite Hinst, M_bind_eq. unfold ret at 1. cbv beta iota. rewrite Hper.
  rewrite M_bind_eq. unfold run_per_file, await.
  rewrite M_bind_eq. unfold read at 1. rewrite Hcmd. cbv beta iota.
  rewrite M_bind_eq. unfold read at 1.
  unfold all_filenames_in_dir, walk_filenames.
  replace (or_str (Some (or_str (Some d) (getcwd P))) (getcwd P)) with d
    by (unfold or_str; by rewrite Htruthy, Htruthy).
  rewrite Hfs. simpl. rewrite !M_bind_eq. unfold read. rewrite Hpat. simpl.
  rewrite M_bind_eq, per_file_commands_empty. reflexivity.
Qed.

(** X20: the tables of the module fit together: the names of [LINTERS]
    are pairwise distinct, every tool has a help command and run commands,
    and every language tag has patterns in [PATTERNS], so that
    [should_autorun] returns for every tool of the table and every set of
    files. *)
Theorem tables_fit_together :
  forall (P : Platform),
    NoDup (Registry.LINTERS P).*1
    /\ forall linter c,
         (linter, c) ∈ Registry.LINTERS P ->
         get_help c <> [] /\ get_run c <> [] /\ get_rundefault c <> []
         /\ is_Some (dict_get (get_language c) Registry.PATTERNS)
         /\ forall (W : World) (files : gset string),
              exists b, should_autorun P W Registry.PATTERNS c files = Ok b.
Proof.
  intros P. split.
  - apply (bool_decide_unpack _). vm_compute. exact I.
  - assert (Hall : Forall
                     (fun item : string * config =>
                        get_help item.2 <> [] /\ get_run item.2 <> []
                        /\ get_rundefault item.2 <> []
                        /\ is_Some (dict_get (get_language item.2)
                                      Registry.PATTERNS))
                     (Registry.LINTERS P)).
    { unfold Registry.LINTERS.
      repeat (apply Forall_cons; split;
              [simpl; repeat split; try discriminate; eexists; reflexivity|]).
      apply Forall_nil_2. }
    intros linter c Hin.
    rewrite Forall_forall in Hall. specialize (Hall (linter, c) Hin).
    change ((linter, c).2) with c in Hall.
    destruct Hall as (Hh & Hr & Hd & [patterns Hp]).
    repeat split; try done. intros W files. unfold should_autorun.
    rewrite Hp. destruct (get_autorun c); simpl; eauto.
Qed.

(** ** Output and parsing *)

Lemma rstrip_rstrip (s : string) : Str.rstrip (Str.rstrip s) = Str.rstrip s.
Proof.
  induction s as [|c s IH]; [reflexivity|].
  simpl. destruct (Str.rstrip s) as [|c' r] eqn:Hr.
  - destruct (Str.is_space c) eqn:Hc; [reflexivity|]. simpl. by rewrite Hc.
  - change (Str.rstrip (String c (String c' r)))
      with (match Str.rstrip (String c' r) with
            | EmptyString =>
                if Str.is_space c then EmptyString else String c EmptyString
            | r0 => String c r0
            end).
    by rewrite IH.
Qed.

Lemma lstrip_rstrip_lstrip (s : string) :
  Str.lstrip (Str.rstrip (Str.lstrip s)) = Str.rstrip (Str.lstrip s).
Proof.
  induction s as [|c s IH]; [reflexivity|].
  simpl Str.lstrip at 2 3. destruct (Str.is_space c) eqn:Hc; [exact IH|].
  change (Str.rstrip (String c s))
    with (match Str.rstrip s with
          | EmptyString =>
              if Str.is_space c then EmptyString else String c EmptyString
          | r0 => String c r0
          end).
  rewrite Hc. destruct (Str.rstrip s); simpl; by rewrite Hc.
Qed.

Lemma strip_strip (s : string) : Str.strip (Str.strip s) = Str.strip s.
Proof.
  unfold Str.strip. by rewrite lstrip_rstrip_lstrip, rstrip_rstrip.
Qed.

(** X21: what [run_command] returns is already stripped, so the
    [output.strip()] that [run_linters] and [run_per_file] apply to it
    changes nothing. *)
Theorem run_command_output_is_stripped :
  forall (W : World) (site : call_site) (command : cmd) (self self' : runner)
         (returncode : Z) (output : string),
    await (run_command W site command) self = (Ok (returncode, output), self') ->
    Str.strip output = output.
Proof.
  intros W site command self self' rc output. simpl.
  destruct (exec W (history self) command) as [rc' out err|e];
    intros H; inversion H; subst. apply strip_strip.
Qed.

(** X22: a tool whose output is empty is not parsed at all, and a parser
    that raises costs its own tool's diagnostics only: in both cases the
    loop body returns the messages it was given. *)
Theorem empty_output_and_parser_failure :
  forall (P : Platform) (W : World) (LINTERS : list (string * config))
         (PATTERNS : list (string * list string)) (install autorun : bool)
         (ignore_paths : option (list string)) (config_dir : option string)
         (linter : string) (c : config) (messages : Messages.t)
         (self self1 : runner) (output : raw_output),
    dict_get linter LINTERS = Some c ->
    install_and_run P W PATTERNS install autorun ignore_paths config_dir
      (Some c) self = (Ok output, self1) ->
    (output_truthy output = false ->
     run_linter P W LINTERS PATTERNS install autorun ignore_paths config_dir
       linter messages self = (Ok messages, self1))
    /\ (forall e,
          output_truthy output = true ->
          parse W (get_parser c) output = Raise e ->
          run_linter P W LINTERS PATTERNS install autorun ignore_paths
            config_dir linter messages self
          = (Ok messages, with_events self1 [EvParse linter output])).
Proof.
  intros P W LINTERS PATTERNS install autorun ignore_paths config_dir linter
         c messages self self1 output Hc Hrun.
  split.
  - intros Hempty. rewrite run_linter_unfold. cbv zeta.
    rewrite Hc, Hrun. unfold parse_and_add. by rewrite Hempty.
  - intros e Hout Hparse. rewrite run_linter_unfold. cbv zeta.
    rewrite Hc, Hrun. unfold parse_and_add. rewrite Hout.
    rewrite M_bind_eq. simpl. rewrite !M_bind_eq. simpl. by rewrite Hparse.
Qed.


(** ** The further properties at work *)

Lemma selection_is_within_the_table_witness :
  Example.select Cases.plain_project true (Some []) None None
  = Ok {["bandit"; "detect-secrets"; "prospector"]}
  /\ "bandit" ∈ ({["bandit"; "detect-secrets"; "prospector"]} : gset string)
  /\ "bandit" ∈ Example.LINTERS.*1
  /\ is_Some (dict_get "bandit" Example.LINTERS).
Proof.
  assert (Hrun : Example.select Cases.plain_project true (Some []) None None
                 = Ok {["bandit"; "detect-secrets"; "prospector"]})
    by (vm_compute; reflexivity).
  assert (Hin : "bandit" ∈ ({["bandit"; "detect-secrets"; "prospector"]}
                            : gset string))
    by (apply (bool_decide_unpack _); vm_compute; exact I).
  split; [exact Hrun|]. split; [exact Hin|].
  exact (selection_is_within_the_table Posix.platform
           (Example.world Cases.plain_project Example.quiet Example.never_stop
              Example.no_findings)
           Example.LINTERS Example.PATTERNS [] true (Some []) None None _
           Hrun "bandit" Hin).
Defined.

Lemma enabled_tool_is_selected_under_autorun_witness :
  "eslint" ∈ Example.LINTERS.*1
  /\ "eslint" ∈ merged (Some ["eslint"])
  /\ ("eslint" ∉ merged None)
  /\ Example.select Cases.plain_project true (Some []) (Some ["eslint"]) None
     = Ok {["bandit"; "detect-secrets"; "eslint"; "prospector"]}
  /\ "eslint" ∈ ({["bandit"; "detect-secrets"; "eslint"; "prospector"]}
                 : gset string).
Proof.
  assert (H1 : "eslint" ∈ Example.LINTERS.*1)
    by (apply (bool_decide_unpack _); vm_compute; exact I).
  assert (H2 : "eslint" ∈ merged (Some ["eslint"]))
    by (apply (bool_decide_unpack _); vm_compute; exact I).
  assert (H3 : "eslint" ∉ merged None)
    by (apply (bool_decide_unpack _); vm_compute; exact I).
  assert (H4 : Example.select Cases.plain_project true (Some [])
                 (Some ["eslint"]) None
               = Ok {["bandit"; "detect-secrets"; "eslint"; "prospector"]})
    by (vm_compute; reflexivity).
  repeat (split; [assumption|]).
  exact (enabled_tool_is_selected_under_autorun Posix.platform
           (Example.world Cases.plain_project Example.quiet Example.never_stop
              Example.no_findings)
           Example.LINTERS Example.PATTERNS [] (Some []) (Some ["eslint"])
           None _ "eslint" H1 H2 H3 H4).
Defined.

Lemma marker_owner_is_selected_witness :
  ("pytool", Cases.pytool) ∈ Cases.table
  /\ dotfiles_exist Posix.platform Cases.marked [] Cases.pytool None = Ok true
  /\ ("pytool" ∉ merged None)
  /\ Cases.select Cases.marked true (Some []) None None
     = Ok {["perfile"; "pytool"]}
  /\ "pytool" ∈ ({["perfile"; "pytool"]} : gset string).
Proof.
  assert (H1 : ("pytool", Cases.pytool) ∈ Cases.table)
    by apply list_elem_of_here.
  assert (H2 : dotfiles_exist Posix.platform Cases.marked [] Cases.pytool None
               = Ok true) by (vm_compute; reflexivity).
  assert (H3 : "pytool" ∉ merged None)
    by (apply (bool_decide_unpack _); vm_compute; exact I).
  assert (H4 : Cases.select Cases.marked true (Some []) None None
               = Ok {["perfile"; "pytool"]}) by (vm_compute; reflexivity).
  repeat (split; [assumption|]).
  exact (marker_owner_is_selected Posix.platform Cases.marked Cases.table
           Example.PATTERNS [] (Some []) None None _ "pytool" Cases.pytool
           H1 H2 (or_introl eq_refl) H3 H4).
Defined.

Lemma tool_without_autorun_needs_enabling_witness :
  (forall c, ("manual", c) ∈ Cases.table ->
             get_autorun c = false
             /\ opt_truthy (get_run_if_dotfile_in_root c) = false)
  /\ ("manual" ∉ merged None)
  /\ Cases.select Cases.marked true (Some []) None None
     = Ok {["perfile"; "pytool"]}
  /\ ("manual" ∉ ({["perfile"; "pytool"]} : gset string)).
Proof.
  assert (H1 : forall c, ("manual", c) ∈ Cases.table ->
                         get_autorun c = false
                         /\ opt_truthy (get_run_if_dotfile_in_root c) = false).
  { intros c Hin. apply list_elem_of_In in Hin. simpl in Hin.
    destruct Hin as [H|[H|[H|[]]]]; inversion H; subst; split; reflexivity. }
  assert (H2 : "manual" ∉ merged None)
    by (apply (bool_decide_unpack _); vm_compute; exact I).
  assert (H3 : Cases.select Cases.marked true (Some []) None None
               = Ok {["perfile"; "pytool"]}) by (vm_compute; reflexivity).
  repeat (split; [assumption|]).
  exact (tool_without_autorun_needs_enabling Posix.platform Cases.marked
           Cases.table Example.PATTERNS [] (Some []) None None _ "manual"
           H1 H2 H3).
Defined.

Lemma selection_without_markers_witness :
  (forall linter c, (linter, c) ∈ Cases.table ->
                    dotfiles_exist Posix.platform Cases.plain [] c None
                    = Ok false)
  /\ all_filenames_in_dir Posix.platform Cases.plain []
       (Some (getcwd Posix.platform)) (Some []) = Ok {["/proj/app.py"]}
  /\ Cases.select Cases.plain true (Some []) None None
     = Ok {["perfile"; "pytool"]}
  /\ ("manual" ∈ ({["perfile"; "pytool"]} : gset string) <->
      ("manual" ∉ merged None)
      /\ exists c, ("manual", c) ∈ Cases.table
                   /\ ("manual" ∈ merged None
                       \/ should_autorun Posix.platform Cases.plain
                            Example.PATTERNS c {["/proj/app.py"]} = Ok true)).
Proof.
  assert (H1 : forall linter c, (linter, c) ∈ Cases.table ->
                 dotfiles_exist Posix.platform Cases.plain [] c None
                 = Ok false).
  { intros linter c Hin. apply list_elem_of_In in Hin. simpl in Hin.
    destruct Hin as [H|[H|[H|[]]]]; inversion H; subst;
      vm_compute; reflexivity. }
  assert (H2 : all_filenames_in_dir Posix.platform Cases.plain []
                 (Some (getcwd Posix.platform)) (Some [])
               = Ok {["/proj/app.py"]}) by (vm_compute; reflexivity).
  assert (H3 : Cases.select Cases.plain true (Some []) None None
               = Ok {["perfile"; "pytool"]}) by (vm_compute; reflexivity).
  repeat (split; [assumption|]).
  exact (selection_without_markers Posix.platform Cases.plain Cases.table
           Example.PATTERNS [] (Some []) None None _ _ H1 H2 H3 "manual").
Defined.

Lemma should_autorun_matches_a_file_witness :
  get_autorun Cases.manual = false
  /\ should_autorun Posix.platform Cases.plain Example.PATTERNS Cases.manual
       {["/proj/app.py"]} = Ok false.
Proof.
  split; [reflexivity|].
  exact (proj1 (proj2 (should_autorun_matches_a_file Posix.platform
                         Cases.plain Example.PATTERNS Cases.manual
                         {["/proj/app.py"]})) eq_refl).
Defined.

Lemma dotfiles_exist_finds_an_entry_witness :
  fs Cases.marked [] (or_str None (getcwd Posix.platform))
  = Some Cases.marked_project
  /\ exists b,
       dotfiles_exist Posix.platform Cases.marked [] Cases.pytool None = Ok b
       /\ (b = true <->
           exists dotfile, dotfile ∈ get_dotfiles Cases.pytool
                           /\ Str.strip dotfile ∈ entries Cases.marked_project).
Proof.
  split; [reflexivity|].
  exact (proj1 (dotfiles_exist_finds_an_entry Posix.platform Cases.marked []
                  Cases.pytool None) Cases.marked_project eq_refl).
Defined.

Lemma ignore_rules_order_is_irrelevant_witness :
  (forall rule, rule ∈ ["docs"; "vendor"] <-> rule ∈ ["vendor"; "docs"; "vendor"])
  /\ should_ignore_path Posix.platform "vendor/x.py" (Some ["docs"; "vendor"])
     = should_ignore_path Posix.platform "vendor/x.py"
         (Some ["vendor"; "docs"; "vendor"]).
Proof.
  assert (H : forall rule : string,
             rule ∈ ["docs"; "vendor"] <-> rule ∈ ["vendor"; "docs"; "vendor"]).
  { intros rule. rewrite !elem_of_cons, !elem_of_nil. tauto. }
  split; [exact H|].
  exact (ignore_rules_order_is_irrelevant Posix.platform "vendor/x.py" _ _ H).
Defined.

Lemma scanned_files_are_text_in_kept_directories_witness :
  walk_filenames Posix.platform Cases.vendored [] None (Some ["vendor"])
  = Ok ({["/proj/app.py"; "/proj/src/main.py"]}, ["/proj"; "/proj/src"])
  /\ all_filenames_in_dir Posix.platform Cases.vendored [] None
       (Some ["vendor"]) = Ok {["/proj/app.py"; "/proj/src/main.py"]}.
Proof.
  assert (H : walk_filenames Posix.platform Cases.vendored [] None
                (Some ["vendor"])
              = Ok ({["/proj/app.py"; "/proj/src/main.py"]},
                    ["/proj"; "/proj/src"])) by (vm_compute; reflexivity).
  split; [exact H|].
  exact (proj1 (scanned_files_are_text_in_kept_directories _ _ _ _ _ _ _ H)).
Defined.


Lemma recorded_install_commands_are_skipped_witness :
  let self := {| previous_install_commands := [["pip"; "install"; "pytool"]];
                 history := [] |} in
  (forall install_cmd, install_cmd ∈ get_install Cases.pytool ->
                       install_cmd ∈ previous_install_commands self)
  /\ await (install_linter Cases.nothing_spawns Cases.pytool) self
     = (Ok tt, self).
Proof.
  intros self.
  assert (H : forall install_cmd, install_cmd ∈ get_install Cases.pytool ->
                install_cmd ∈ previous_install_commands self)
    by (intros x Hx; exact Hx).
  split; [exact H|].
  exact (recorded_install_commands_are_skipped Cases.nothing_spawns
           Cases.pytool self H).
Defined.

Lemma installed_tool_is_not_reinstalled_witness :
  get_install Cases.pytool = [] ++ ["pip"; "install"; "pytool"] :: []
  /\ (["pip"; "install"; "pytool"] ∉ previous_install_commands new_runner)
  /\ exec Cases.plain (history new_runner) (get_help Cases.pytool)
     = Exited 0 EmptyString EmptyString
  /\ await (install_linter Cases.plain Cases.pytool) new_runner
     = (Ok tt,
        {| previous_install_commands := [["pip"; "install"; "pytool"]];
           history := [EvExec SiteHelp ["pytool"; "-h"]] |}).
Proof.
  assert (H1 : get_install Cases.pytool
               = [] ++ ["pip"; "install"; "pytool"] :: []) by reflexivity.
  assert (H2 : ["pip"; "install"; "pytool"]
               ∉ previous_install_commands new_runner)
    by (apply not_elem_of_nil).
  assert (H3 : exec Cases.plain (history new_runner) (get_help Cases.pytool)
               = Exited 0 EmptyString EmptyString) by reflexivity.
  repeat (split; [assumption|]).
  exact (installed_tool_is_not_reinstalled Cases.plain Cases.pytool new_runner
           [] [] ["pip"; "install"; "pytool"] EmptyString EmptyString H1
           (fun x Hx => False_ind _ (not_elem_of_nil x Hx)) H2 H3).
Defined.

Lemma install_failures_are_passed_over_witness :
  (forall h command e,
      exec Cases.nothing_spawns h command = Failed e -> e = OSError)
  /\ (await (install_linter Cases.nothing_spawns Cases.pytool) new_runner).1
     = Ok tt.
Proof.
  assert (H : forall h command e,
             exec Cases.nothing_spawns h command = Failed e -> e = OSError).
  { intros h command e Heq. simpl in Heq. by inversion Heq. }
  split; [exact H|].
  exact (proj1 (install_failures_are_passed_over Cases.nothing_spawns
                  Cases.pytool new_runner) H).
Defined.

Lemma install_trusted_runs_the_whole_list_witness :
  (forall h command e,
      exec Cases.nothing_spawns h command = Failed e -> e = OSError)
  /\ await (install_trusted Cases.nothing_spawns Example.TRUSTED_INSTALL)
       new_runner
     = (Ok tt,
        with_events new_runner
          (map (EvExec SiteTrusted) Example.TRUSTED_INSTALL)).
Proof.
  assert (H : forall h command e,
             exec Cases.nothing_spawns h command = Failed e -> e = OSError).
  { intros h command e Heq. simpl in Heq. by inversion Heq. }
  split; [exact H|].
  exact (install_trusted_runs_the_whole_list Cases.nothing_spawns
           Example.TRUSTED_INSTALL new_runner H).
Defined.

Lemma lint_raises_only_from_the_selection_witness :
  exists out,
    (lint Posix.platform Cases.nothing_spawns Cases.table Example.PATTERNS
       Example.TRUSTED_INSTALL Example.INSTALL_DIRS true false None None
       (Some ["pytool"]) None true new_runner).1 = Ok out.
Proof.
  exact (proj2 (lint_raises_only_from_the_selection Posix.platform
                  Cases.nothing_spawns Cases.table Example.PATTERNS
                  Example.TRUSTED_INSTALL Example.INSTALL_DIRS true false None
                  None (Some ["pytool"]) None true new_runner) eq_refl).
Defined.

Lemma absent_ignore_list_loses_every_diagnostic_witness :
  (lint Posix.platform Scenario.one_fails Example.LINTERS Example.PATTERNS
     Example.TRUSTED_INSTALL Example.INSTALL_DIRS false false None None
     (Some ["yamllint"]) None false new_runner).1 = Ok ∅
  /\ (lint Posix.platform Scenario.one_fails Example.LINTERS Example.PATTERNS
        Example.TRUSTED_INSTALL Example.INSTALL_DIRS false false
        Scenario.ignore_paths None (Some ["yamllint"]) None false
        new_runner).1 = Ok {[ ("a.yaml", 1%Z, "yamllint: too long") ]}
  /\ (∅ : gset diagnostic) = ∅.
Proof.
  assert (H : (lint Posix.platform Scenario.one_fails Example.LINTERS
                 Example.PATTERNS Example.TRUSTED_INSTALL Example.INSTALL_DIRS
                 false false None None (Some ["yamllint"]) None false
                 new_runner).1 = Ok ∅) by (vm_compute; reflexivity).
  split; [exact H|]. split; [vm_compute; reflexivity|].
  exact (absent_ignore_list_loses_every_diagnostic _ _ _ _ _ _ _ _ _ _ _ _ _
           _ H).
Defined.


Lemma run_config_chooses_the_configuration_witness :
  dotfiles_exist Posix.platform Cases.marked [] Cases.pytool None = Ok true
  /\ get_run Cases.pytool <> []
  /\ run_config Posix.platform Cases.marked [] Cases.pytool
       (Some "/elsewhere") = Ok ["pytool"].
Proof.
  assert (H1 : dotfiles_exist Posix.platform Cases.marked [] Cases.pytool None
               = Ok true) by (vm_compute; reflexivity).
  assert (H2 : get_run Cases.pytool <> []) by discriminate.
  repeat (split; [assumption|]).
  exact (proj1 (run_config_chooses_the_configuration Posix.platform
                  Cases.marked [] Cases.pytool "/elsewhere") H1 H2
           (Some "/elsewhere")).
Defined.

Lemma per_file_tool_scans_config_dir_witness :
  fs Cases.plain (history new_runner) "/nowhere" = None
  /\ run_config Posix.platform Cases.plain (history new_runner) Cases.perfile
       None = Ok ["perfile"]
  /\ dict_get (get_language Cases.perfile) Example.PATTERNS = Some ["*.py"]
  /\ install_and_run Posix.platform Cases.plain Example.PATTERNS false false
       (Some []) (Some "/nowhere") (Some Cases.perfile) new_runner
     = (Ok (OutList []), new_runner)
  /\ (install_and_run Posix.platform Cases.plain Example.PATTERNS false false
        (Some []) None (Some Cases.perfile) new_runner).1
     = Ok (OutList [("/proj/app.py", EmptyString)]).
Proof.
  assert (H1 : fs Cases.plain (history new_runner) "/nowhere" = None)
    by reflexivity.
  assert (H2 : run_config Posix.platform Cases.plain (history new_runner)
                 Cases.perfile None = Ok ["perfile"])
    by (vm_compute; reflexivity).
  assert (H3 : dict_get (get_language Cases.perfile) Example.PATTERNS
               = Some ["*.py"]) by reflexivity.
  repeat (split; [assumption|]).
  split; [|vm_compute; reflexivity].
  exact (per_file_tool_scans_config_dir Posix.platform Cases.plain
           Example.PATTERNS false false (Some []) Cases.perfile "/nowhere"
           ["perfile"] ["*.py"] new_runner eq_refl eq_refl eq_refl H1 H2 H3).
Defined.

Lemma tables_fit_together_witness :
  let c := Registry.entry [Registry.pip_U Posix.platform "ansible-lint"]
             ["ansible-lint"; "-h"] ["ansible-lint"; "-p"]
             ["ansible-lint"; "-p"; "-c"; "{config_dir}/.ansible-lint"]
             [".ansible-lint"] "AnsibleLintParser" "ansible" true true in
  ("ansible-lint", c) ∈ Registry.LINTERS Posix.platform
  /\ is_Some (dict_get (get_language c) Registry.PATTERNS).
Proof.
  intros c.
  assert (H : ("ansible-lint", c) ∈ Registry.LINTERS Posix.platform)
    by apply list_elem_of_here.
  split; [exact H|].
  destruct (proj2 (tables_fit_together Posix.platform) "ansible-lint" c H)
    as (_ & _ & _ & Hp & _).
  exact Hp.
Defined.

Lemma run_command_output_is_stripped_witness :
  await (run_command Cases.padded SiteRun ["pytool"]) new_runner
  = (Ok (0%Z, "report"), with_events new_runner [EvExec SiteRun ["pytool"]])
  /\ Str.strip "report" = "report".
Proof.
  assert (H : await (run_command Cases.padded SiteRun ["pytool"]) new_runner
              = (Ok (0%Z, "report"),
                 with_events new_runner [EvExec SiteRun ["pytool"]]))
    by (vm_compute; reflexivity).
  split; [exact H|].
  exact (run_command_output_is_stripped _ _ _ _ _ _ _ H).
Defined.

Lemma empty_output_and_parser_failure_witness :
  let self1 :=
    with_events new_runner
      [EvExec SiteRun
         ["pytool"; "-c"; "/opt/inlineplz/linters/config/.pytoolrc"]] in
  dict_get "pytool" Cases.table = Some Cases.pytool
  /\ install_and_run Posix.platform Cases.unparsable Example.PATTERNS false
       false (Some []) None (Some Cases.pytool) new_runner
     = (Ok (OutStr "report"), self1)
  /\ parse Cases.unparsable (get_parser Cases.pytool) (OutStr "report")
     = Raise ValueError
  /\ run_linter Posix.platform Cases.unparsable Cases.table Example.PATTERNS
       false false (Some []) None "pytool" Messages.new new_runner
     = (Ok Messages.new,
        with_events self1 [EvParse "pytool" (OutStr "report")]).
Proof.
  intros self1.
  assert (H1 : dict_get "pytool" Cases.table = Some Cases.pytool)
    by reflexivity.
  assert (H2 : install_and_run Posix.platform Cases.unparsable
                 Example.PATTERNS false false (Some []) None
                 (Some Cases.pytool) new_runner
               = (Ok (OutStr "report"), self1)) by (vm_compute; reflexivity).
  assert (H3 : parse Cases.unparsable (get_parser Cases.pytool)
                 (OutStr "report") = Raise ValueError) by reflexivity.
  repeat (split; [assumption|]).
  exact (proj2 (empty_output_and_parser_failure Posix.platform
                  Cases.unparsable Cases.table Example.PATTERNS false false
                  (Some []) None "pytool" Cases.pytool Messages.new new_runner
                  self1 (OutStr "report") H1 H2)
           ValueError eq_refl H3).
Defined.
